(** * JA4 TLS fingerprint extractor

    A shallow embedding of [security-lab/detection/ja4_extractor.py]:
    the raw ClientHello parser [parse_client_hello_raw] and the fingerprint
    engine [calculate_ja4], with the Python primitives they rest on
    (indexing and slicing of [bytes], [struct.unpack], UTF-8, string
    formatting, [sorted], [hashlib.sha256]).

    Python integers are [N] (every integer the program handles is a length,
    an offset or a code read with an unsigned format), [bytes] is a list of
    [Byte.byte], and [str] is the list of its Unicode code points. *)

From Stdlib Require Import NArith Lia Strings.Byte String Ascii.
From stdpp Require Import base decidable option numbers list gmap sorting.
From Equations Require Import Equations.

Local Open Scope N_scope.

(** ** Python values *)

Abbreviation bytes := (list byte).
Abbreviation str := (list N).

(** A string literal of the source, as its code points. *)
Definition py (s : string) : str := N_of_ascii <$> list_ascii_of_string s.

(** The exceptions the program can meet. *)
Inductive exn :=
  | IndexError
  | struct_error
  | UnicodeDecodeError
  | UnicodeEncodeError.

Inductive result (A : Type) :=
  | Ok (x : A)
  | Raise (e : exn).
Arguments Ok {A} x.
Arguments Raise {A} e.

Global Instance result_ret : MRet result := λ A x, Ok x.
Global Instance result_bind : MBind result := λ A B f m,
  match m with
  | Ok x => f x
  | Raise e => Raise e
  end.
Global Instance result_fmap : FMap result := λ A B f m,
  match m with
  | Ok x => Ok (f x)
  | Raise e => Raise e
  end.

(** [len(s)] *)
Definition len {A} (s : list A) : N := N.of_nat (length s).

(** [data[i]] for [i >= 0]: [IndexError] out of range. *)
Definition index (data : bytes) (i : N) : result N :=
  match data !! N.to_nat i with
  | Some x => Ok (Byte.to_N x)
  | None => Raise IndexError
  end.

(** [data[lo:hi]] for [0 <= lo]: a slice never raises, it is cut at the end
    of the data. *)
Definition slice {A} (data : list A) (lo hi : N) : list A :=
  take (N.to_nat (hi - lo)) (drop (N.to_nat lo) data).

(** [struct.unpack(">H", s)[0]]: the argument must hold exactly 2 bytes. *)
Definition unpack_H (s : bytes) : result N :=
  match s with
  | [hi; lo] => Ok (256 * Byte.to_N hi + Byte.to_N lo)
  | _ => Raise struct_error
  end.

(** [struct.unpack(">I", s)[0]]: the argument must hold exactly 4 bytes. *)
Definition unpack_I (s : bytes) : result N :=
  match s with
  | [b3; b2; b1; b0] =>
      Ok (16777216 * Byte.to_N b3 + 65536 * Byte.to_N b2
          + 256 * Byte.to_N b1 + Byte.to_N b0)
  | _ => Raise struct_error
  end.

(** [range(0, n, 2)] *)
Definition range2 (n : N) : list N :=
  (λ k, 2 * N.of_nat k) <$> seq 0 (N.to_nat ((n + 1) / 2)).

(** ** UTF-8 *)

Definition is_cont (x : N) : bool := (0x80 <=? x) && (x <=? 0xBF).
Definition cont (x : N) : N := x - 0x80.

(** [s.decode('utf-8')], strict: shortest forms only, no surrogates,
    nothing above U+10FFFF. [None] stands for [UnicodeDecodeError]. *)
Fixpoint utf8_decode_N (s : list N) : option str :=
  match s with
  | [] => Some []
  | b0 :: s1 =>
      if b0 <? 0x80 then (b0 ::.) <$> utf8_decode_N s1
      else if (0xC2 <=? b0) && (b0 <=? 0xDF) then
        match s1 with
        | b1 :: s2 =>
            if is_cont b1
            then (((b0 - 0xC0) * 64 + cont b1) ::.) <$> utf8_decode_N s2
            else None
        | _ => None
        end
      else if (0xE0 <=? b0) && (b0 <=? 0xEF) then
        match s1 with
        | b1 :: b2 :: s3 =>
            if is_cont b1 && is_cont b2
               && negb ((b0 =? 0xE0) && (b1 <? 0xA0))
               && negb ((b0 =? 0xED) && (0xA0 <=? b1))
            then (((b0 - 0xE0) * 4096 + cont b1 * 64 + cont b2) ::.)
                   <$> utf8_decode_N s3
            else None
        | _ => None
        end
      else if (0xF0 <=? b0) && (b0 <=? 0xF4) then
        match s1 with
        | b1 :: b2 :: b3 :: s4 =>
            if is_cont b1 && is_cont b2 && is_cont b3
               && negb ((b0 =? 0xF0) && (b1 <? 0x90))
               && negb ((b0 =? 0xF4) && (0x90 <=? b1))
            then (((b0 - 0xF0) * 262144 + cont b1 * 4096
                   + cont b2 * 64 + cont b3) ::.) <$> utf8_decode_N s4
            else None
        | _ => None
        end
      else None
  end.

Definition decode (s : bytes) : result str :=
  match utf8_decode_N (Byte.to_N <$> s) with
  | Some u => Ok u
  | None => Raise UnicodeDecodeError
  end.

(** A byte from its value (values are below 256 wherever this is used). *)
Definition byte_of_N (n : N) : byte := default "000"%byte (Byte.of_N n).

(** The UTF-8 encoding of one code point; surrogates have none. *)
Definition utf8_encode_char (u : N) : option bytes :=
  if u <? 0x80 then Some [byte_of_N u]
  else if u <? 0x800 then
    Some [byte_of_N (0xC0 + u / 64); byte_of_N (0x80 + u mod 64)]
  else if (0xD800 <=? u) && (u <=? 0xDFFF) then None
  else if u <? 0x10000 then
    Some [byte_of_N (0xE0 + u / 4096); byte_of_N (0x80 + (u / 64) mod 64);
          byte_of_N (0x80 + u mod 64)]
  else if u <? 0x110000 then
    Some [byte_of_N (0xF0 + u / 262144); byte_of_N (0x80 + (u / 4096) mod 64);
          byte_of_N (0x80 + (u / 64) mod 64); byte_of_N (0x80 + u mod 64)]
  else None.

(** [s.encode()] *)
Definition encode (s : str) : result bytes :=
  match mapM utf8_encode_char s with
  | Some bs => Ok (concat bs)
  | None => Raise UnicodeEncodeError
  end.

(** ** Number formatting *)

(** The digits of [n] in base [base], most significant first. *)
Equations? to_base (base n : N) : list N by wf (N.to_nat n) lt :=
to_base base n with decide (n < base ∨ base < 2) => {
  | left _ := [n];
  | right _ := to_base base (n / base) ++ [n mod base] }.
Proof.
  assert (n / base < n); [|lia].
  apply N.div_lt; lia.
Qed.

(** The character of a digit: '0'..'9', then 'a'..'f'. *)
Definition digit_char (d : N) : N := if d <? 10 then 48 + d else 87 + d.

(** Zero padding on the left up to [width] characters. *)
Definition zfill (width : nat) (s : str) : str :=
  replicate (width - length s) 48 ++ s.

(** [f"{n:04x}"] *)
Definition format_04x (n : N) : str := zfill 4 (digit_char <$> to_base 16 n).

(** [f"{n:02d}"] *)
Definition format_02d (n : N) : str := zfill 2 (digit_char <$> to_base 10 n).

(** [sep.join(parts)] *)
Fixpoint join (sep : str) (parts : list str) : str :=
  match parts with
  | [] => []
  | [p] => p
  | p :: ps => p ++ sep ++ join sep ps
  end.

(** ** SHA-256 ([hashlib.sha256], FIPS 180-4) on 32-bit words held in [N] *)

Module SHA256.

Definition w32 (x : N) : N := x mod 4294967296.
Definition add32 (x y : N) : N := w32 (x + y).
Definition rotr (n x : N) : N :=
  N.lor (N.shiftr x n) (w32 (N.shiftl x (32 - n))).
Definition shr (n x : N) : N := N.shiftr x n.
Definition Ch (x y z : N) : N :=
  N.lxor (N.land x y) (N.land (N.lxor x 0xffffffff) z).
Definition Maj (x y z : N) : N :=
  N.lxor (N.lxor (N.land x y) (N.land x z)) (N.land y z).
Definition bsig0 (x : N) : N := N.lxor (N.lxor (rotr 2 x) (rotr 13 x)) (rotr 22 x).
Definition bsig1 (x : N) : N := N.lxor (N.lxor (rotr 6 x) (rotr 11 x)) (rotr 25 x).
Definition ssig0 (x : N) : N := N.lxor (N.lxor (rotr 7 x) (rotr 18 x)) (shr 3 x).
Definition ssig1 (x : N) : N := N.lxor (N.lxor (rotr 17 x) (rotr 19 x)) (shr 10 x).

(** The constants are defined as FIPS 180-4 defines them, from the first
    64 primes: the round constants are the first 32 bits of the fractional
    parts of their cube roots, the initial hash value those of the square
    roots of the first 8. *)
Definition is_prime (p : nat) : bool :=
  forallb (λ q, negb (p mod q =? 0)%nat) (seq 2 (p - 2)).

Definition primes : list N := N.of_nat <$> List.filter is_prime (seq 2 310).

(** The integer cube root of [n], bit by bit from bit [k] down. *)
Fixpoint cbrt_bits (k : nat) (n r : N) : N :=
  match k with
  | O => r
  | S k' =>
      let r' := r + 2 ^ N.of_nat k' in
      if r' * r' * r' <=? n then cbrt_bits k' n r' else cbrt_bits k' n r
  end.

Definition frac_cbrt (p : N) : N := w32 (cbrt_bits 36 (p * 2 ^ 96) 0).
Definition frac_sqrt (p : N) : N := w32 (N.sqrt (p * 2 ^ 64)).

Definition K : list N := Eval vm_compute in frac_cbrt <$> primes.

(** The eight working words. *)
Record state := State {
  ha : N; hb : N; hc : N; hd : N; he : N; hf : N; hg : N; hh : N }.

Definition H0 : state := Eval vm_compute in
  match frac_sqrt <$> take 8 primes with
  | [a0; b0; c0; d0; e0; f0; g0; h0] => State a0 b0 c0 d0 e0 f0 g0 h0
  | _ => State 0 0 0 0 0 0 0 0
  end.

(** [n] on [width] bytes, most significant first. *)
Definition be_bytes (width : nat) (n : N) : list N :=
  (λ i, (n / 256 ^ N.of_nat i) mod 256) <$> reverse (seq 0 width).

(** Message padding: 0x80, zeros, then the bit length on 8 bytes. *)
Definition pad (msg : list N) : list N :=
  let zeros := ((64 - (length msg + 9) mod 64) mod 64)%nat in
  msg ++ [0x80] ++ replicate zeros 0 ++ be_bytes 8 (8 * len msg).

(** Big-endian 32-bit words of a block. *)
Fixpoint words (block : list N) : list N :=
  match block with
  | b3 :: b2 :: b1 :: b0 :: rest =>
      (16777216 * b3 + 65536 * b2 + 256 * b1 + b0) :: words rest
  | _ => []
  end.

(** The message schedule: [n] more words after the ones in [w]. *)
Fixpoint schedule (n : nat) (w : list N) : list N :=
  match n with
  | O => w
  | S n' =>
      let i := length w in
      let at_ k := nth (i - k) w 0 in
      schedule n'
        (w ++ [add32 (add32 (ssig1 (at_ 2%nat)) (at_ 7%nat))
                     (add32 (ssig0 (at_ 15%nat)) (at_ 16%nat))])
  end.

Definition round (s : state) (kw : N * N) : state :=
  let t1 := add32 (add32 (add32 (hh s) (bsig1 (he s)))
                         (add32 (Ch (he s) (hf s) (hg s)) kw.1)) kw.2 in
  let t2 := add32 (bsig0 (ha s)) (Maj (ha s) (hb s) (hc s)) in
  State (add32 t1 t2) (ha s) (hb s) (hc s) (add32 (hd s) t1) (he s) (hf s) (hg s).

Definition compress (s : state) (block : list N) : state :=
  let w := schedule 48 (words block) in
  let r := foldl round s (zip K w) in
  State (add32 (ha s) (ha r)) (add32 (hb s) (hb r)) (add32 (hc s) (hc r))
        (add32 (hd s) (hd r)) (add32 (he s) (he r)) (add32 (hf s) (hf r))
        (add32 (hg s) (hg r)) (add32 (hh s) (hh r)).

Fixpoint blocks (n : nat) (s : state) (data : list N) : state :=
  match n with
  | O => s
  | S n' => blocks n' (compress s (take 64 data)) (drop 64 data)
  end.

(** [hashlib.sha256(msg).digest()]: 32 bytes. *)
Definition digest (msg : bytes) : list N :=
  let data := pad (Byte.to_N <$> msg) in
  let s := blocks (length data / 64) H0 data in
  be_bytes 4 (ha s) ++ be_bytes 4 (hb s) ++ be_bytes 4 (hc s) ++ be_bytes 4 (hd s)
  ++ be_bytes 4 (he s) ++ be_bytes 4 (hf s) ++ be_bytes 4 (hg s) ++ be_bytes 4 (hh s).

(** [hashlib.sha256(msg).hexdigest()]: 64 lowercase hex characters. *)
Definition hexdigest (msg : bytes) : str :=
  digest msg ≫= λ x, [digit_char (x / 16); digit_char (x mod 16)].

End SHA256.

(** ** Constants of the module *)

(** GREASE values (RFC 8701) - must be filtered out *)
Definition GREASE_VALUES : gset N :=
  {[ 0x0a0a; 0x1a1a; 0x2a2a; 0x3a3a; 0x4a4a; 0x5a5a;
     0x6a6a; 0x7a7a; 0x8a8a; 0x9a9a; 0xaaaa; 0xbaba;
     0xcaca; 0xdada; 0xeaea; 0xfafa ]}.

(** TLS version mapping *)
Definition TLS_VERSIONS : gmap N str :=
  list_to_map
    [ (0x0304, py "13");  (* TLS 1.3 *)
      (0x0303, py "12");  (* TLS 1.2 *)
      (0x0302, py "11");  (* TLS 1.1 *)
      (0x0301, py "10");  (* TLS 1.0 *)
      (0x0300, py "s3");  (* SSL 3.0 *)
      (0xfefd, py "d2");  (* DTLS 1.2 *)
      (0xfeff, py "d1")   (* DTLS 1.0 *) ].

(** Extension types *)
Definition EXT_SNI : N := 0x0000.
Definition EXT_ALPN : N := 0x0010.
Definition EXT_SUPPORTED_VERSIONS : N := 0x002b.
Definition EXT_SIGNATURE_ALGORITHMS : N := 0x000d.

(** ** Data classes *)

(** Parsed TLS ClientHello message. The three list fields that default to
    [None] are replaced by [[]] in [__post_init__], so they are lists here. *)
Record ClientHello := {
  version : N;
  cipher_suites : list N;
  extensions : list N;
  sni : option str;
  alpn_protocols : list str;
  supported_versions : list N;
  signature_algorithms : list N }.

(** JA4 fingerprint with all components. *)
Record JA4Fingerprint := {
  full : str;
  a : str;  (* Readable metadata *)
  b : str;  (* Cipher hash *)
  c : str   (* Extension hash *) }.

(** ** The fingerprint engine *)

(** Check if a value is a GREASE value. *)
Definition is_grease (value : N) : bool := bool_decide (value ∈ GREASE_VALUES).

(** Convert TLS version to JA4 format. *)
Definition get_tls_version_string (version : N) : str :=
  default (py "00") (TLS_VERSIONS !! version).

(** Compute truncated SHA256 hash (12 chars). *)
Definition compute_hash (data : str) : result str :=
  bs ← encode data; mret (take 12 (SHA256.hexdigest bs)).

(** [max(l)] of a list known to be non-empty, [x] being its first element. *)
Definition max_from (x : N) (l : list N) : N := foldl N.max x l.

(** [sorted(l)] on integers. *)
Definition sorted (l : list N) : list N := merge_sort N.le l.

(** Truth value of an [Optional[str]]: [None] and the empty string are false. *)
Definition truthy (s : option str) : bool :=
  match s with
  | Some (_ :: _) => true
  | _ => false
  end.

Section Engine.

(** [str.isalnum] on characters beyond ASCII follows the Unicode character
    database of the interpreter, which the program only consults. *)
Variable unicode_isalnum : N → bool.

(** [c.isalnum()] for one character. *)
Definition isalnum (ch : N) : bool :=
  if ch <? 128 then
    ((48 <=? ch) && (ch <=? 57)) || ((65 <=? ch) && (ch <=? 90))
    || ((97 <=? ch) && (ch <=? 122))
  else unicode_isalnum ch.

(** Extract ALPN code (first and last alphanumeric char). *)
Definition get_alpn_code (alpn_protocols : list str) : str :=
  match alpn_protocols with
  | [] => py "00"
  | first_proto :: _ =>
      let alphanumeric := filter (λ ch, isalnum ch) first_proto in
      match alphanumeric with
      | c0 :: _ :: _ => [c0; List.last alphanumeric c0]
      | [c0] => [c0; c0]
      | [] => py "00"
      end
  end.

(** Calculate JA4 fingerprint from parsed ClientHello. *)
Definition calculate_ja4 (client_hello : ClientHello) : result JA4Fingerprint :=
  (* Section A: readable metadata *)
  let protocol := py "t" in
  let version :=
    match supported_versions client_hello with
    | _ :: _ =>
        let real_versions :=
          filter (λ v, ¬ is_grease v) (supported_versions client_hello) in
        match real_versions with
        | v :: vs => max_from v vs
        | [] => version client_hello
        end
    | [] => version client_hello
    end in
  let version_str := get_tls_version_string version in
  let sni_char := if truthy (sni client_hello) then py "d" else py "i" in
  let real_ciphers := filter (λ x, ¬ is_grease x) (cipher_suites client_hello) in
  let cipher_count := N.min (len real_ciphers) 99 in
  let real_extensions := filter (λ e, ¬ is_grease e) (extensions client_hello) in
  let ext_count := N.min (len real_extensions) 99 in
  let alpn_code := get_alpn_code (alpn_protocols client_hello) in
  let section_a :=
    protocol ++ version_str ++ sni_char ++ format_02d cipher_count
    ++ format_02d ext_count ++ alpn_code in
  (* Section B: cipher hash *)
  let ciphers_sorted := sorted real_ciphers in
  let cipher_string := join (py ",") (format_04x <$> ciphers_sorted) in
  section_b ← compute_hash cipher_string;
  (* Section C: extension hash *)
  let extensions_filtered :=
    filter (λ e, e ∉ [EXT_SNI; EXT_ALPN]) real_extensions in
  let extensions_sorted := sorted extensions_filtered in
  let ext_string := join (py ",") (format_04x <$> extensions_sorted) in
  let combined :=
    match signature_algorithms client_hello with
    | _ :: _ =>
        let sig_string :=
          join (py ",") (format_04x <$> signature_algorithms client_hello) in
        ext_string ++ py "_" ++ sig_string
    | [] => ext_string
    end in
  section_c ← compute_hash combined;
  (* Build final fingerprint *)
  let full_ja4 := section_a ++ py "_" ++ section_b ++ py "_" ++ section_c in
  mret {| full := full_ja4; a := section_a; b := section_b; c := section_c |}.

End Engine.

(** ** The raw ClientHello parser *)

(** [for i in range(0, n, 2): x = struct.unpack(">H", data[base+i:base+i+2])[0];
    acc.append(x)], with [idxs] the values of [i]. The list is appended to in
    place, so what was read before an exception stays in it: the loop gives
    the list and how it ended. *)
Fixpoint read_codes (data : bytes) (base : N) (idxs : list N) (acc : list N)
  : list N * result () :=
  match idxs with
  | [] => (acc, Ok ())
  | i :: idxs' =>
      match unpack_H (slice data (base + i) (base + i + 2)) with
      | Ok x => read_codes data base idxs' (acc ++ [x])
      | Raise e => (acc, Raise e)
      end
  end.

(** The SNI extension (lines 278-284): on any exception [sni] keeps its value. *)
Definition parse_sni (ext_data : bytes) (sni : option str) : option str :=
  match
    sni_list_len ← unpack_H (slice ext_data 0 2);
    sni_type ← index ext_data 2;
    sni_len ← unpack_H (slice ext_data 3 5);
    decode (slice ext_data 5 (5 + sni_len))
  with
  | Ok name => Some name
  | Raise _ => sni
  end.

(** The loop of the ALPN extension (lines 291-295); an exception ends it and
    is dropped, the protocols appended so far stay. *)
Equations? alpn_loop (ext_data : bytes) (alpn_list_len alpn_offset : N)
    (alpn_protocols : list str) : list str
    by wf (N.to_nat (2 + alpn_list_len - alpn_offset)) lt :=
alpn_loop ext_data alpn_list_len alpn_offset alpn_protocols
  with decide (alpn_offset < 2 + alpn_list_len) => {
  | right _ := alpn_protocols;
  | left _ with index ext_data alpn_offset => {
    | Raise _ := alpn_protocols;
    | Ok proto_len
        with decode (slice ext_data (alpn_offset + 1) (alpn_offset + 1 + proto_len)) => {
      | Raise _ := alpn_protocols;
      | Ok proto :=
          alpn_loop ext_data alpn_list_len (alpn_offset + (1 + proto_len))
                    (alpn_protocols ++ [proto]) } } }.
Proof. lia. Qed.

(** The ALPN extension (lines 288-297). *)
Definition parse_alpn (ext_data : bytes) (alpn_protocols : list str) : list str :=
  match unpack_H (slice ext_data 0 2) with
  | Ok alpn_list_len => alpn_loop ext_data alpn_list_len 2 alpn_protocols
  | Raise _ => alpn_protocols
  end.

(** The supported_versions extension (lines 301-307). *)
Definition parse_supported_versions (ext_data : bytes) (supported_versions : list N)
  : list N :=
  match index ext_data 0 with
  | Ok ver_list_len =>
      (read_codes ext_data 1 (range2 ver_list_len) supported_versions).1
  | Raise _ => supported_versions
  end.

(** The signature_algorithms extension (lines 311-317). *)
Definition parse_signature_algorithms (ext_data : bytes)
    (signature_algorithms : list N) : list N :=
  match unpack_H (slice ext_data 0 2) with
  | Ok sig_list_len =>
      (read_codes ext_data 2 (range2 sig_list_len) signature_algorithms).1
  | Raise _ => signature_algorithms
  end.

(** What the extension loop updates: four lists and the variable [sni]. *)
Record ext_vars := ExtVars {
  v_extensions : list N;
  v_sni : option str;
  v_alpn_protocols : list str;
  v_supported_versions : list N;
  v_signature_algorithms : list N }.

(** One turn of the extension loop (lines 269-317); it gives [ext_len], by
    which line 319 moves the offset, and the updated variables. *)
Definition ext_iter (data : bytes) (offset : N) (vs : ext_vars)
  : result (N * ext_vars) :=
  ext_type ← unpack_H (slice data offset (offset + 2));
  ext_len ← unpack_H (slice data (offset + 2) (offset + 4));
  let ext_data := slice data (offset + 4) (offset + 4 + ext_len) in
  let extensions := v_extensions vs ++ [ext_type] in
  let vs :=
    if (ext_type =? EXT_SNI) && (0 <? ext_len) then
      ExtVars extensions (parse_sni ext_data (v_sni vs)) (v_alpn_protocols vs)
              (v_supported_versions vs) (v_signature_algorithms vs)
    else if (ext_type =? EXT_ALPN) && (0 <? ext_len) then
      ExtVars extensions (v_sni vs) (parse_alpn ext_data (v_alpn_protocols vs))
              (v_supported_versions vs) (v_signature_algorithms vs)
    else if (ext_type =? EXT_SUPPORTED_VERSIONS) && (0 <? ext_len) then
      ExtVars extensions (v_sni vs) (v_alpn_protocols vs)
              (parse_supported_versions ext_data (v_supported_versions vs))
              (v_signature_algorithms vs)
    else if (ext_type =? EXT_SIGNATURE_ALGORITHMS) && (0 <? ext_len) then
      ExtVars extensions (v_sni vs) (v_alpn_protocols vs) (v_supported_versions vs)
              (parse_signature_algorithms ext_data (v_signature_algorithms vs))
    else
      ExtVars extensions (v_sni vs) (v_alpn_protocols vs) (v_supported_versions vs)
              (v_signature_algorithms vs) in
  mret (ext_len, vs).

(** [while offset < ext_end: ...; offset += 4 + ext_len] (lines 268-319). *)
Equations? ext_loop (data : bytes) (ext_end offset : N) (vs : ext_vars)
    : result ext_vars by wf (N.to_nat (ext_end - offset)) lt :=
ext_loop data ext_end offset vs with decide (offset < ext_end) => {
  | right _ := Ok vs;
  | left _ with ext_iter data offset vs => {
    | Raise e := Raise e;
    | Ok (ext_len, vs') := ext_loop data ext_end (offset + (4 + ext_len)) vs' } }.
Proof. lia. Qed.

(** The body of the [try] of [parse_client_hello_raw] (lines 212-329): it
    returns [None], returns a [ClientHello], or raises. *)
Definition parse_body (data : bytes) : result (option ClientHello) :=
  let offset := 0 in
  (* TLS Record Header (5 bytes) *)
  content_type ← index data offset;
  if negb (content_type =? 0x16) then mret None else
  record_version ← unpack_H (slice data (offset + 1) (offset + 3));
  record_length ← unpack_H (slice data (offset + 3) (offset + 5));
  let offset := offset + 5 in
  (* Handshake Header (4 bytes) *)
  handshake_type ← index data offset;
  if negb (handshake_type =? 0x01) then mret None else
  handshake_length ←
    unpack_I ("000"%byte :: slice data (offset + 1) (offset + 4));
  let offset := offset + 4 in
  (* ClientHello fields *)
  client_version ← unpack_H (slice data offset (offset + 2));
  let offset := offset + 2 in
  (* Random (32 bytes) *)
  let offset := offset + 32 in
  (* Session ID *)
  session_id_len ← index data offset;
  let offset := offset + (1 + session_id_len) in
  (* Cipher Suites *)
  cipher_suites_len ← unpack_H (slice data offset (offset + 2));
  let offset := offset + 2 in
  let '(cipher_suites, ended) :=
    read_codes data offset (range2 cipher_suites_len) [] in
  _ ← ended;
  let offset := offset + cipher_suites_len in
  (* Compression Methods *)
  compression_len ← index data offset;
  let offset := offset + (1 + compression_len) in
  (* Extensions *)
  let vs := ExtVars [] None [] [] [] in
  vs ← (if offset <? len data then
          extensions_len ← unpack_H (slice data offset (offset + 2));
          let offset := offset + 2 in
          let ext_end := offset + extensions_len in
          ext_loop data ext_end offset vs
        else mret vs);
  mret (Some {| version := client_version;
                cipher_suites := cipher_suites;
                extensions := v_extensions vs;
                sni := v_sni vs;
                alpn_protocols := v_alpn_protocols vs;
                supported_versions := v_supported_versions vs;
                signature_algorithms := v_signature_algorithms vs |}).

(** Parse raw TLS ClientHello bytes. Every exception of the body is caught
    (line 331): the function prints it and returns [None]. *)
Definition parse_client_hello_raw (data : bytes) : option ClientHello :=
  match parse_body data with
  | Ok r => r
  | Raise _ => None
  end.

(** A buffer written as the list of its byte values. *)
Definition buffer (l : list N) : bytes := byte_of_N <$> l.

(** ** The local variables of [calculate_ja4]

    The values the function binds on its way, named as in the source, so
    that statements can speak of them. [calculate_ja4_unfold] below shows
    that the function returns the fingerprint built from them. *)

Definition real_codes (l : list N) : list N := filter (λ x, ¬ is_grease x) l.

Definition effective_version (client_hello : ClientHello) : N :=
  match supported_versions client_hello with
  | _ :: _ =>
      match real_codes (supported_versions client_hello) with
      | v :: vs => max_from v vs
      | [] => version client_hello
      end
  | [] => version client_hello
  end.

Definition sni_char (client_hello : ClientHello) : str :=
  if truthy (sni client_hello) then py "d" else py "i".

Definition cipher_count (client_hello : ClientHello) : N :=
  N.min (len (real_codes (cipher_suites client_hello))) 99.

Definition ext_count (client_hello : ClientHello) : N :=
  N.min (len (real_codes (extensions client_hello))) 99.

Definition section_a (unicode_isalnum : N → bool) (client_hello : ClientHello) : str :=
  py "t" ++ get_tls_version_string (effective_version client_hello)
  ++ sni_char client_hello ++ format_02d (cipher_count client_hello)
  ++ format_02d (ext_count client_hello)
  ++ get_alpn_code unicode_isalnum (alpn_protocols client_hello).

Definition cipher_string (client_hello : ClientHello) : str :=
  join (py ",") (format_04x <$> sorted (real_codes (cipher_suites client_hello))).

Definition ext_string (client_hello : ClientHello) : str :=
  join (py ",")
    (format_04x <$>
       sorted (filter (λ e, e ∉ [EXT_SNI; EXT_ALPN])
                 (real_codes (extensions client_hello)))).

Definition combined (client_hello : ClientHello) : str :=
  match signature_algorithms client_hello with
  | _ :: _ =>
      ext_string client_hello ++ py "_"
      ++ join (py ",") (format_04x <$> signature_algorithms client_hello)
  | [] => ext_string client_hello
  end.

(** ** The statements of the specification *)

(** Character classes and a pattern that is a fixed sequence of classes
    (every pattern of the specification is one). *)
Definition in_range (lo hi ch : N) : bool := (lo <=? ch) && (ch <=? hi).
Definition is_digit : N → bool := in_range 48 57.
Definition is_lower : N → bool := in_range 97 122.
Definition is_lower_or_digit (ch : N) : bool := is_lower ch || is_digit ch.
Definition is_hex (ch : N) : bool := is_digit ch || in_range 97 102 ch.
Definition is_char (x ch : N) : bool := ch =? x.
Definition is_d_or_i (ch : N) : bool := is_char 100 ch || is_char 105 ch.

Fixpoint matches (classes : list (N → bool)) (s : str) : bool :=
  match classes, s with
  | [], [] => true
  | p :: classes', ch :: s' => p ch && matches classes' s'
  | _, _ => false
  end.

(** [^[a-z][0-9]{2}[di][0-9]{2}[0-9]{2}[a-z0-9]{2}_[0-9a-f]{12}_[0-9a-f]{12}$] *)
Definition JA4_FORMAT : list (N → bool) :=
  [is_lower] ++ replicate 2 is_digit ++ [is_d_or_i] ++ replicate 2 is_digit
  ++ replicate 2 is_digit ++ replicate 2 is_lower_or_digit ++ [is_char 95]
  ++ replicate 12 is_hex ++ [is_char 95] ++ replicate 12 is_hex.

(** The strings of the version table, and the default. *)
Definition VERSION_STRINGS : list str :=
  [py "13"; py "12"; py "11"; py "10"; py "s3"; py "d2"; py "d1"; py "00"].

(** The version table as the specification lists it. *)
Definition version_table (code : N) : str :=
  if code =? 0x0304 then py "13" else if code =? 0x0303 then py "12"
  else if code =? 0x0302 then py "11" else if code =? 0x0301 then py "10"
  else if code =? 0x0300 then py "s3" else if code =? 0xfefd then py "d2"
  else if code =? 0xfeff then py "d1" else py "00".

(** A 16-bit code as exactly four lowercase hex digits. *)
Definition hex4 (n : N) : str :=
  [digit_char (n / 4096 mod 16); digit_char (n / 256 mod 16);
   digit_char (n / 16 mod 16); digit_char (n mod 16)].

(** The first 12 hex characters of the SHA-256 digest of an ASCII string,
    each character being one byte. *)
Definition sha256_12 (s : str) : str := take 12 (SHA256.hexdigest (byte_of_N <$> s)).

(** The big-endian 16-bit codes held by a run of bytes, pair by pair. *)
Fixpoint be16_pairs (s : bytes) : list N :=
  match s with
  | hi :: lo :: s' => (256 * Byte.to_N hi + Byte.to_N lo) :: be16_pairs s'
  | _ => []
  end.

(** The specification's reading of a list extension: a prefix of
    [prefix] bytes that counts the entries, then that many 2-byte codes. *)
Definition codes_by_count (prefix : nat) (count : N) (ext_data : bytes) : list N :=
  take (N.to_nat count) (be16_pairs (drop prefix ext_data)).

(** Two buffers of the same length that differ at most in the two bytes of
    the record length (indices 3 and 4). *)
Definition same_but_record_length (d d' : bytes) : Prop :=
  length d' = length d ∧ take 3 d' = take 3 d ∧ drop 5 d' = drop 5 d.

(** ** Inputs of the examples *)

(** A ClientHello with nothing in it but its version. *)
Definition bare_hello (v : N) : ClientHello :=
  {| version := v; cipher_suites := []; extensions := []; sni := None;
     alpn_protocols := []; supported_versions := []; signature_algorithms := [] |}.

(** Only GREASE ciphers and extensions, with one signature algorithm. *)
Definition grease_hello : ClientHello :=
  {| version := 0x0303; cipher_suites := [0x0a0a; 0x1a1a]; extensions := [0xfafa];
     sni := None; alpn_protocols := []; supported_versions := [];
     signature_algorithms := [0x0403] |}.

(** A ClientHello whose first ALPN protocol is written in capitals. *)
Definition capitals_hello : ClientHello :=
  {| version := 0x0303; cipher_suites := []; extensions := []; sni := None;
     alpn_protocols := [py "H2"]; supported_versions := [];
     signature_algorithms := [] |}.

(** A ClientHello whose SNI is present and empty. *)
Definition empty_sni_hello : ClientHello :=
  {| version := 0x0303; cipher_suites := []; extensions := []; sni := Some [];
     alpn_protocols := []; supported_versions := []; signature_algorithms := [] |}.

(** The first scenario of the specification. *)
Definition scenario1 : ClientHello :=
  {| version := 0x0304;
     cipher_suites := [0x1301; 0x1302; 0x1303; 0xc02c; 0xc02b; 0x0a0a];
     extensions := [0x0000; 0x0010; 0x002b; 0x000d; 0x0033; 0x1a1a];
     sni := Some (py "example.com");
     alpn_protocols := [py "h2"; py "http/1.1"];
     supported_versions := [];
     signature_algorithms := [0x0403; 0x0503; 0x0603] |}.

(** A record of 90 bytes (85 after the record header) whose header
    announces [256 * hi + lo] bytes. It holds an SNI extension whose host name is
    the single byte 0xff, a supported_versions extension [02 0304 0303], a
    signature_algorithms extension and an ALPN extension. *)
Definition record_announcing (hi lo : N) : bytes := buffer
  ([0x16; 0x03; 0x01; hi; lo;  0x01; 0x00; 0x00; 0x51;  0x03; 0x03]
   ++ replicate 32 0 ++
   [0x00;  0x00; 0x04; 0x13; 0x01; 0x0a; 0x0a;  0x01; 0x00;
    0x00; 0x24;
    0x00; 0x00; 0x00; 0x06;  0x00; 0x04; 0x00; 0x00; 0x01; 0xff;
    0x00; 0x2b; 0x00; 0x05;  0x02; 0x03; 0x04; 0x03; 0x03;
    0x00; 0x0d; 0x00; 0x04;  0x00; 0x02; 0x04; 0x03;
    0x00; 0x10; 0x00; 0x05;  0x00; 0x03; 0x02; 0x68; 0x32 ]).

(** The header announces 0xffff bytes. *)
Definition odd_record : bytes := record_announcing 0xff 0xff.

(** What the parser makes of [odd_record]. *)
Definition odd_hello : ClientHello :=
  {| version := 0x0303; cipher_suites := [0x1301; 0x0a0a];
     extensions := [0x0000; 0x002b; 0x000d; 0x0010]; sni := None;
     alpn_protocols := [py "h2"]; supported_versions := [0x0304];
     signature_algorithms := [0x0403] |}.

(** [client_hello] with other cipher-suite and extension lists. *)
Definition with_lists (client_hello : ClientHello) (cs es : list N) : ClientHello :=
  {| version := version client_hello; cipher_suites := cs; extensions := es;
     sni := sni client_hello; alpn_protocols := alpn_protocols client_hello;
     supported_versions := supported_versions client_hello;
     signature_algorithms := signature_algorithms client_hello |}.

(** No character beyond ASCII counts as alphanumeric: one possible table. *)
Definition ascii_only : N → bool := λ _, false.

(** ** Further statements about the engine *)

(** [client_hello] with other cipher suites, extensions and supported
    versions. *)
Definition with_code_lists (client_hello : ClientHello) (cs es sv : list N)
  : ClientHello :=
  {| version := version client_hello; cipher_suites := cs; extensions := es;
     sni := sni client_hello; alpn_protocols := alpn_protocols client_hello;
     supported_versions := sv;
     signature_algorithms := signature_algorithms client_hello |}.

(** [client_hello] with another SNI and other ALPN protocols. *)
Definition with_names (client_hello : ClientHello) (name : option str)
    (protos : list str) : ClientHello :=
  {| version := version client_hello;
     cipher_suites := cipher_suites client_hello;
     extensions := extensions client_hello;
     sni := name; alpn_protocols := protos;
     supported_versions := supported_versions client_hello;
     signature_algorithms := signature_algorithms client_hello |}.

(** [s.split(sep)] for a separator of one character. *)
Fixpoint split (sep : N) (s : str) : list str :=
  match s with
  | [] => [[]]
  | ch :: s' =>
      if ch =? sep then [] :: split sep s'
      else match split sep s' with
           | part :: parts => (ch :: part) :: parts
           | [] => [[ch]]
           end
  end.

(** A surrogate code point (U+D800..U+DFFF). *)
Definition is_surrogate (ch : N) : bool := (0xD800 <=? ch) && (ch <=? 0xDFFF).

(** ** Further statements about the parser *)

(** The variables of the extension loop before its first turn. *)
Definition no_extensions : ext_vars := ExtVars [] None [] [] [].

(** A 16-bit code. *)
Definition is_u16 (x : N) : Prop := x < 65536.

(** The 47 bytes of the smallest ClientHello record: TLS 1.2, no session
    id, no cipher suite, no compression method, no extension block. *)
Definition smallest_record : bytes := buffer
  ([0x16; 0x03; 0x01; 0x00; 0x2a;  0x01; 0x00; 0x00; 0x26;  0x03; 0x03]
   ++ replicate 32 0 ++ [0x00;  0x00; 0x00;  0x00]).

(** All the codes the extension loop has collected are 16-bit. *)
Definition codes_u16 (vs : ext_vars) : Prop :=
  Forall is_u16 (v_extensions vs)
  ∧ Forall is_u16 (v_supported_versions vs)
  ∧ Forall is_u16 (v_signature_algorithms vs).

(** Whatever the extension loop has decoded comes with the type of the
    extension it was decoded from. *)
Definition decoded_from_listed (vs : ext_vars) : Prop :=
  (v_sni vs ≠ None → EXT_SNI ∈ v_extensions vs)
  ∧ (v_alpn_protocols vs ≠ [] → EXT_ALPN ∈ v_extensions vs)
  ∧ (v_supported_versions vs ≠ [] → EXT_SUPPORTED_VERSIONS ∈ v_extensions vs)
  ∧ (v_signature_algorithms vs ≠ [] → EXT_SIGNATURE_ALGORITHMS ∈ v_extensions vs).

(** A record whose only cipher suite and only extension are GREASE values. *)
Definition grease_record : bytes := buffer
  ([0x16; 0x03; 0x01; 0x00; 0x32;  0x01; 0x00; 0x00; 0x2e;  0x03; 0x03]
   ++ replicate 32 0 ++
   [0x00;  0x00; 0x02; 0x0a; 0x0a;  0x01; 0x00;
    0x00; 0x04;  0x1a; 0x1a; 0x00; 0x00]).


(** ** The wire format, to state what the parser reads back *)

(** A 16-bit value on two bytes, most significant first. *)
Definition u16_be (n : N) : bytes := [byte_of_N (n / 256); byte_of_N (n mod 256)].

(** One ALPN protocol name: its length on one byte, then its bytes. *)
Definition alpn_entry (proto : bytes) : bytes := byte_of_N (len proto) :: proto.

(** The data of an SNI extension: the length of the server-name list and
    the name type (three bytes, whatever they are), the length of the host
    name on two bytes, the host name. *)
Definition sni_data (list_len_hi list_len_lo name_type : byte) (name : bytes) : bytes :=
  [list_len_hi; list_len_lo; name_type] ++ u16_be (len name) ++ name.

(** The data of an ALPN extension: the length of the list on two bytes,
    then the entries. *)
Definition alpn_data (protos : list bytes) : bytes :=
  u16_be (len (concat (alpn_entry <$> protos))) ++ concat (alpn_entry <$> protos).

(** The data of a supported_versions extension. *)
Definition versions_data (versions : list N) : bytes :=
  byte_of_N (2 * len versions) :: concat (u16_be <$> versions).

(** The data of a signature_algorithms extension. *)
Definition sigalgs_data (algorithms : list N) : bytes :=
  u16_be (2 * len algorithms) ++ concat (u16_be <$> algorithms).

(** An extension on the wire: type, length of the data, data. *)
Definition extension_bytes (e : N * bytes) : bytes :=
  u16_be e.1 ++ u16_be (len e.2) ++ e.2.

(** The extension block: absent, or the length of the extensions on two
    bytes and the extensions. *)
Definition extension_block (exts : option (list (N * bytes))) : bytes :=
  match exts with
  | None => []
  | Some l =>
      u16_be (len (concat (extension_bytes <$> l))) ++ concat (extension_bytes <$> l)
  end.

(** A TLS record with a ClientHello: record header (type 0x16, version,
    length), handshake header (type 0x01, length on three bytes), client
    version, 32 random bytes, session id, cipher suites, compression
    methods, extension block. *)
Definition client_hello_record (record_version record_length handshake_length : bytes)
    (client_version : N) (random session_id : bytes) (suites : list N)
    (compression : bytes) (exts : option (list (N * bytes))) : bytes :=
  [byte_of_N 0x16] ++ record_version ++ record_length
  ++ [byte_of_N 0x01] ++ handshake_length
  ++ u16_be client_version ++ random
  ++ [byte_of_N (len session_id)] ++ session_id
  ++ u16_be (2 * len suites) ++ concat (u16_be <$> suites)
  ++ [byte_of_N (len compression)] ++ compression
  ++ extension_block exts.

(** What one extension of type [e.1] with data [e.2] does to the variables
    of the extension loop. *)
Definition ext_effect (vs : ext_vars) (e : N * bytes) : ext_vars :=
  let extensions := v_extensions vs ++ [e.1] in
  if (e.1 =? EXT_SNI) && (0 <? len e.2) then
    ExtVars extensions (parse_sni e.2 (v_sni vs)) (v_alpn_protocols vs)
            (v_supported_versions vs) (v_signature_algorithms vs)
  else if (e.1 =? EXT_ALPN) && (0 <? len e.2) then
    ExtVars extensions (v_sni vs) (parse_alpn e.2 (v_alpn_protocols vs))
            (v_supported_versions vs) (v_signature_algorithms vs)
  else if (e.1 =? EXT_SUPPORTED_VERSIONS) && (0 <? len e.2) then
    ExtVars extensions (v_sni vs) (v_alpn_protocols vs)
            (parse_supported_versions e.2 (v_supported_versions vs))
            (v_signature_algorithms vs)
  else if (e.1 =? EXT_SIGNATURE_ALGORITHMS) && (0 <? len e.2) then
    ExtVars extensions (v_sni vs) (v_alpn_protocols vs) (v_supported_versions vs)
            (parse_signature_algorithms e.2 (v_signature_algorithms vs))
  else
    ExtVars extensions (v_sni vs) (v_alpn_protocols vs) (v_supported_versions vs)
            (v_signature_algorithms vs).

(** The ClientHello made of a version, cipher suites and the variables of
    the extension loop (lines 321-329). *)
Definition hello_of (client_version : N) (suites : list N) (vs : ext_vars)
  : ClientHello :=
  {| version := client_version; cipher_suites := suites;
     extensions := v_extensions vs; sni := v_sni vs;
     alpn_protocols := v_alpn_protocols vs;
     supported_versions := v_supported_versions vs;
     signature_algorithms := v_signature_algorithms vs |}.

(** An extension whose type and length fit their two bytes. *)
Definition fits_header (e : N * bytes) : Prop := e.1 < 65536 ∧ len e.2 < 65536.

(** The extensions the parser looks into, and the others. *)
Inductive extension :=
  | ServerName (list_len_hi list_len_lo name_type : byte) (name : bytes)
  | Protocols (protos : list bytes)
  | SupportedVersions (codes : list N)
  | SignatureAlgorithms (codes : list N)
  | Other (ext_type : N) (body : bytes).

(** Type and data of an extension. *)
Definition on_wire (x : extension) : N * bytes :=
  match x with
  | ServerName hi lo name_type name => (EXT_SNI, sni_data hi lo name_type name)
  | Protocols protos => (EXT_ALPN, alpn_data protos)
  | SupportedVersions codes => (EXT_SUPPORTED_VERSIONS, versions_data codes)
  | SignatureAlgorithms codes => (EXT_SIGNATURE_ALGORITHMS, sigalgs_data codes)
  | Other ext_type body => (ext_type, body)
  end.

Definition is_utf8 (s : bytes) : Prop := ∃ text, decode s = Ok text.

(** The text of bytes that are UTF-8. *)
Definition text_of (s : bytes) : str :=
  match decode s with
  | Ok text => text
  | Raise _ => []
  end.

(** The lengths fit their fields, the codes are 16-bit, the names are
    UTF-8; an extension of another kind is of another type. *)
Definition well_formed (x : extension) : Prop :=
  match x with
  | ServerName _ _ _ name => 5 + len name < 65536 ∧ is_utf8 name
  | Protocols protos =>
      Forall (λ proto, is_utf8 proto ∧ len proto < 256) protos
      ∧ 2 + len (concat (alpn_entry <$> protos)) < 65536
  | SupportedVersions codes => Forall (λ c, c < 65536) codes ∧ 2 * len codes < 256
  | SignatureAlgorithms codes =>
      Forall (λ c, c < 65536) codes ∧ 2 + 2 * len codes < 65536
  | Other ext_type body =>
      ext_type < 65536 ∧ len body < 65536
      ∧ ext_type ∉ [EXT_SNI; EXT_ALPN; EXT_SUPPORTED_VERSIONS; EXT_SIGNATURE_ALGORITHMS]
  end.

(** The type of an extension and what it says. *)
Definition ext_type_of (x : extension) : N := (on_wire x).1.

Definition said (vs : ext_vars) (x : extension) : ext_vars :=
  let extensions := v_extensions vs ++ [ext_type_of x] in
  match x with
  | ServerName _ _ _ name =>
      ExtVars extensions (Some (text_of name)) (v_alpn_protocols vs)
              (v_supported_versions vs) (v_signature_algorithms vs)
  | Protocols protos =>
      ExtVars extensions (v_sni vs) (v_alpn_protocols vs ++ (text_of <$> protos))
              (v_supported_versions vs) (v_signature_algorithms vs)
  | SupportedVersions codes =>
      ExtVars extensions (v_sni vs) (v_alpn_protocols vs)
              (v_supported_versions vs ++ codes) (v_signature_algorithms vs)
  | SignatureAlgorithms codes =>
      ExtVars extensions (v_sni vs) (v_alpn_protocols vs) (v_supported_versions vs)
              (v_signature_algorithms vs ++ codes)
  | Other _ _ =>
      ExtVars extensions (v_sni vs) (v_alpn_protocols vs) (v_supported_versions vs)
              (v_signature_algorithms vs)
  end.

(** Five extensions, one of each kind, with a GREASE value among the
    supported versions. *)
Definition sample_extensions : list extension :=
  [ ServerName "000" "009" "000" (buffer [101; 120; 46; 99; 111; 109]);
    Protocols [buffer [104; 50]; buffer [104; 116; 116; 112; 47; 49; 46; 49]];
    SupportedVersions [0x0a0a; 0x0304; 0x0303];
    SignatureAlgorithms [0x0403; 0x0804];
    Other 0xff01 (buffer [0]) ].

(** * Properties *)

(** ** Python primitives *)

Example sha256_constants :
  length SHA256.K = 64%nat
  ∧ SHA256.K !! 0%nat = Some 0x428a2f98 ∧ SHA256.K !! 63%nat = Some 0xc67178f2
  ∧ SHA256.ha SHA256.H0 = 0x6a09e667 ∧ SHA256.hh SHA256.H0 = 0x5be0cd19.
Proof. vm_compute. repeat split. Qed.

(** [hashlib]'s test vector for the empty message. *)
Example sha256_empty :
  SHA256.hexdigest [] =
  py "e3b0c44298fc1c149afbf4c8996fb92427ae41e4649b934ca495991b7852b855".
Proof. vm_compute. reflexivity. Qed.

Example odd_record_parsed : parse_client_hello_raw odd_record = Some odd_hello.
Proof. vm_compute. reflexivity. Qed.

Example scenario1_full :
  full <$> calculate_ja4 ascii_only scenario1
  = Ok (py "t13d0505h2_bf5bdbdbea07_c0cb44ba0808").
Proof. vm_compute. reflexivity. Qed.

(** [Ok] is injective (stated once, so that no proof has to compute). *)
Lemma Ok_inj {A} (x y : A) : Ok x = Ok y → x = y.
Proof. intros H. by injection H. Qed.

(** *** Digits and formatting *)

Lemma to_base_small base n : n < base → to_base base n = [n].
Proof. intros. simp to_base. destruct (decide _); simpl; [done | lia]. Qed.

Lemma to_base_step base n :
  2 ≤ base → base ≤ n → to_base base n = to_base base (n / base) ++ [n mod base].
Proof.
  intros. rewrite to_base_equation_1.
  destruct (decide _); simpl; [lia | done].
Qed.

Lemma to_base_digits base n : 2 ≤ base → Forall (λ d, d < base) (to_base base n).
Proof.
  intros Hb. induction n as [n IH] using (well_founded_induction N.lt_wf_0).
  destruct (decide (n < base)) as [Hn | Hn].
  - rewrite to_base_small by done. by repeat constructor.
  - rewrite to_base_step by lia. apply Forall_app. split.
    + apply IH, N.div_lt; lia.
    + repeat constructor. apply N.mod_lt. lia.
Qed.

Lemma digit_char_hex d : d < 16 → is_hex (digit_char d) = true.
Proof.
  intros. unfold digit_char, is_hex, is_digit, in_range.
  destruct (d <? 10) eqn:E; [apply N.ltb_lt in E | apply N.ltb_ge in E].
  - apply orb_true_iff. left. apply andb_true_iff. split; apply N.leb_le; lia.
  - apply orb_true_iff. right. apply andb_true_iff. split; apply N.leb_le; lia.
Qed.

Lemma digit_char_digit d : d < 10 → is_digit (digit_char d) = true.
Proof.
  intros. unfold digit_char, is_digit, in_range.
  destruct (d <? 10) eqn:E; [| apply N.ltb_ge in E; lia].
  apply andb_true_iff. split; apply N.leb_le; lia.
Qed.

Lemma is_hex_ascii ch : is_hex ch = true → ch < 128.
Proof.
  unfold is_hex, is_digit, in_range.
  rewrite orb_true_iff, !andb_true_iff, !N.leb_le. lia.
Qed.

Lemma zfill_hex width s :
  Forall (λ ch, is_hex ch = true) s → Forall (λ ch, is_hex ch = true) (zfill width s).
Proof.
  intros. apply Forall_app. split; [| done].
  apply Forall_replicate. reflexivity.
Qed.

Lemma format_04x_is_hex n : Forall (λ ch, is_hex ch = true) (format_04x n).
Proof.
  apply zfill_hex, Forall_fmap.
  eapply Forall_impl; [apply (to_base_digits 16); lia |].
  intros d Hd. by apply digit_char_hex.
Qed.

(** Division and remainder by constants, for [lia]. *)
Ltac divmod := zify; Z.to_euclidean_division_equations; lia.

(** Below 16^4, [{:04x}] gives exactly four digits. *)
Lemma format_04x_hex4 n : n < 65536 → format_04x n = hex4 n.
Proof.
  intros Hn. unfold format_04x, hex4.
  destruct (decide (n < 16)) as [H1 | H1].
  { rewrite to_base_small by done.
    replace (n / 4096) with 0 by divmod. replace (n / 256) with 0 by divmod.
    replace (n / 16) with 0 by divmod. replace (n mod 16) with n by divmod.
    reflexivity. }
  rewrite (to_base_step 16 n) by lia.
  destruct (decide (n / 16 < 16)) as [H2 | H2].
  { rewrite to_base_small by done.
    replace (n / 4096) with 0 by divmod. replace (n / 256) with 0 by divmod.
    replace (n / 16 mod 16) with (n / 16) by divmod. reflexivity. }
  rewrite (to_base_step 16 (n / 16)) by lia.
  replace (n / 16 / 16) with (n / 256) by divmod.
  destruct (decide (n / 256 < 16)) as [H3 | H3].
  { rewrite to_base_small by done.
    replace (n / 4096) with 0 by divmod.
    replace (n / 256 mod 16) with (n / 256) by divmod. reflexivity. }
  rewrite (to_base_step 16 (n / 256)) by lia.
  replace (n / 256 / 16) with (n / 4096) by divmod.
  rewrite to_base_small by divmod.
  replace (n / 4096 mod 16) with (n / 4096) by divmod. reflexivity.
Qed.

(** Below 100, [{:02d}] gives exactly two decimal digits. *)
Lemma format_02d_two n :
  n < 100 → format_02d n = [digit_char (n / 10); digit_char (n mod 10)].
Proof.
  intros Hn. unfold format_02d.
  destruct (decide (n < 10)) as [H1 | H1].
  { rewrite to_base_small by done.
    replace (n / 10) with 0 by divmod. replace (n mod 10) with n by divmod.
    reflexivity. }
  rewrite (to_base_step 10 n) by lia.
  rewrite to_base_small by divmod. reflexivity.
Qed.

Lemma format_02d_digits n : n < 100 → matches [is_digit; is_digit] (format_02d n) = true.
Proof.
  intros Hn. rewrite format_02d_two by done. simpl.
  rewrite !digit_char_digit by divmod. done.
Qed.

(** *** Patterns *)

Lemma matches_app cs1 cs2 s1 s2 :
  matches cs1 s1 = true → matches cs2 s2 = true → matches (cs1 ++ cs2) (s1 ++ s2) = true.
Proof.
  revert s1. induction cs1 as [| p cs1 IH]; intros [| ch s1]; simpl; try done.
  rewrite !andb_true_iff. intros [? ?] ?. auto.
Qed.

Lemma matches_replicate p s :
  Forall (λ ch, p ch = true) s → matches (replicate (length s) p) s = true.
Proof. induction 1 as [| ch s Hch _ IH]; simpl; [done |]. by rewrite Hch, IH. Qed.

Lemma matches_length cs s : matches cs s = true → length s = length cs.
Proof.
  revert s. induction cs as [| p cs IH]; intros [| ch s]; simpl; try done.
  rewrite andb_true_iff. intros [_ ?]. f_equal. auto.
Qed.

(** *** The digest *)

Lemma be_bytes_length width n : length (SHA256.be_bytes width n) = width.
Proof. unfold SHA256.be_bytes. by rewrite length_fmap, length_reverse, length_seq. Qed.

Lemma be_bytes_small width n : Forall (λ x, x < 256) (SHA256.be_bytes width n).
Proof.
  unfold SHA256.be_bytes. apply Forall_fmap, Forall_forall.
  intros i _. simpl. apply N.mod_lt. lia.
Qed.

Lemma digest_length msg : length (SHA256.digest msg) = 32%nat.
Proof. unfold SHA256.digest. by rewrite !length_app, !be_bytes_length. Qed.

Lemma digest_small msg : Forall (λ x, x < 256) (SHA256.digest msg).
Proof. unfold SHA256.digest. rewrite !Forall_app. repeat split; apply be_bytes_small. Qed.

Lemma hexdigest_length msg : length (SHA256.hexdigest msg) = 64%nat.
Proof.
  unfold SHA256.hexdigest.
  assert (∀ l : list N,
    length (l ≫= λ x, [digit_char (x / 16); digit_char (x mod 16)]) = (2 * length l)%nat) as E.
  { induction l as [| x l IH]; [done |]. rewrite bind_cons, length_app, IH. simpl. lia. }
  by rewrite E, digest_length.
Qed.

Lemma hexdigest_is_hex msg : Forall (λ ch, is_hex ch = true) (SHA256.hexdigest msg).
Proof.
  unfold SHA256.hexdigest. apply Forall_bind.
  eapply Forall_impl; [apply digest_small |].
  intros x Hx. simpl in Hx. repeat apply Forall_cons_2; [| | constructor];
    apply digit_char_hex; divmod.
Qed.

(** A truncated digest is 12 lowercase hex characters. *)
Lemma sha256_12_hex s : matches (replicate 12 is_hex) (sha256_12 s) = true.
Proof.
  unfold sha256_12.
  set (h := take 12 _).
  assert (length h = 12%nat) as <-.
  { unfold h. rewrite length_take, hexdigest_length. done. }
  apply matches_replicate, Forall_take, hexdigest_is_hex.
Qed.

(** *** Encoding *)

Lemma encode_ascii s : Forall (λ ch, ch < 128) s → encode s = Ok (byte_of_N <$> s).
Proof.
  intros Hs. unfold encode.
  assert (mapM utf8_encode_char s = Some ((λ ch, [byte_of_N ch]) <$> s)) as ->.
  { induction Hs as [| ch s Hch _ IH]; [done |].
    cbn [mapM fmap list_fmap]. rewrite IH. unfold utf8_encode_char.
    apply N.ltb_lt in Hch. rewrite Hch. done. }
  f_equal. induction s as [| ch s' IH]; [done |].
  inv Hs. simpl. f_equal. auto.
Qed.

Lemma compute_hash_ascii s :
  Forall (λ ch, ch < 128) s → compute_hash s = Ok (sha256_12 s).
Proof. intros Hs. unfold compute_hash. by rewrite encode_ascii. Qed.

Lemma join_Forall (P : N → Prop) sep parts :
  Forall P sep → Forall (Forall P) parts → Forall P (join sep parts).
Proof.
  intros Hsep. induction 1 as [| p ps Hp Hps IH]; [constructor |].
  simpl. destruct ps as [| p' ps']; [done |].
  rewrite !Forall_app. auto.
Qed.

(** A comma-joined list of [{:04x}] codes is made of ASCII characters. *)
Lemma hex_list_ascii l : Forall (λ ch, ch < 128) (join (py ",") (format_04x <$> l)).
Proof.
  apply join_Forall.
  - by repeat constructor.
  - apply Forall_fmap, Forall_forall. intros n _. simpl.
    eapply Forall_impl; [apply format_04x_is_hex |]. apply is_hex_ascii.
Qed.

(** ** The fingerprint engine *)

(** The engine never raises: the hashed strings are ASCII, so [encode]
    succeeds, and the result is built from the local variables. *)
Lemma calculate_ja4_unfold u client_hello :
  calculate_ja4 u client_hello =
  Ok {| full := section_a u client_hello ++ py "_"
                ++ sha256_12 (cipher_string client_hello) ++ py "_"
                ++ sha256_12 (combined client_hello);
        a := section_a u client_hello;
        b := sha256_12 (cipher_string client_hello);
        c := sha256_12 (combined client_hello) |}.
Proof.
  unfold calculate_ja4.
  fold (real_codes (cipher_suites client_hello)).
  fold (real_codes (extensions client_hello)).
  fold (cipher_string client_hello). fold (ext_string client_hello).
  fold (combined client_hello).
  rewrite (compute_hash_ascii (cipher_string client_hello)) by apply hex_list_ascii.
  assert (Forall (λ ch, ch < 128) (combined client_hello)) as Hc.
  { unfold combined. destruct (signature_algorithms client_hello) as [| s0 sigs].
    - apply hex_list_ascii.
    - rewrite !Forall_app. repeat split; [apply hex_list_ascii | | apply hex_list_ascii].
      by repeat constructor. }
  cbn [mbind result_bind]. rewrite (compute_hash_ascii _ Hc).
  reflexivity.
Qed.

(** The dictionary lookup with its default is the table of the specification. *)
Lemma get_tls_version_string_table v : get_tls_version_string v = version_table v.
Proof.
  unfold get_tls_version_string, version_table.
  repeat match goal with
  | |- context [v =? ?k] =>
      let E := fresh "E" in
      destruct (v =? k) eqn:E;
      [apply N.eqb_eq in E; subst v; vm_compute; reflexivity | apply N.eqb_neq in E]
  end.
  unfold TLS_VERSIONS. rewrite (not_elem_of_list_to_map_1 _ v); [reflexivity |].
  cbn [fmap list_fmap fst]. rewrite !not_elem_of_cons. repeat split; try done.
  apply not_elem_of_nil.
Qed.

Lemma version_table_strings v : version_table v ∈ VERSION_STRINGS.
Proof.
  unfold version_table, VERSION_STRINGS.
  repeat match goal with
  | |- context [v =? ?k] => destruct (v =? k)
  end; set_solver.
Qed.

Lemma version_string_length v : length (get_tls_version_string v) = 2%nat.
Proof.
  rewrite get_tls_version_string_table.
  pose proof (version_table_strings v) as H. unfold VERSION_STRINGS in H.
  repeat (apply elem_of_cons in H as [-> | H]; [reflexivity |]).
  by apply elem_of_nil in H.
Qed.

(** [max_from] is the maximum of the non-empty list [x :: l]. *)
Lemma max_from_spec x l :
  max_from x l ∈ x :: l ∧ ∀ y, y ∈ x :: l → y ≤ max_from x l.
Proof.
  unfold max_from. revert x. induction l as [| z l IH]; intros x; simpl.
  - split; [left |]. intros y Hy. apply list_elem_of_singleton in Hy. lia.
  - destruct (IH (N.max x z)) as [Hin Hmax]. clear IH. split.
    + apply elem_of_cons in Hin as [Heq | Hin].
      * rewrite Heq. destruct (N.max_spec x z) as [[_ ->] | [_ ->]].
        -- right. left.
        -- left.
      * do 2 right. done.
    + intros y Hy.
      assert (N.max x z ≤ foldl N.max (N.max x z) l) by (apply Hmax; left).
      apply elem_of_cons in Hy as [-> | Hy]; [lia |].
      apply elem_of_cons in Hy as [-> | Hy]; [lia |].
      apply Hmax. by right.
Qed.

(** C5. In Section A the version characters are the table's string for the
    effective version: the version field when [supported_versions] is
    empty or holds only GREASE values, else the greatest of its values
    that are not GREASE; the table maps the seven known codes and sends
    every other code to "00". *)
Theorem section_a_version u client_hello :
  ∃ fp v,
    calculate_ja4 u client_hello = Ok fp
    ∧ take 3 (a fp) = py "t" ++ version_table v
    ∧ (let real := filter (λ x, ¬ is_grease x) (supported_versions client_hello) in
       (real = [] ∧ v = version client_hello)
       ∨ (v ∈ real ∧ ∀ x, x ∈ real → x ≤ v))
    ∧ version_table 0x0304 = py "13" ∧ version_table 0x0303 = py "12"
    ∧ version_table 0x0302 = py "11" ∧ version_table 0x0301 = py "10"
    ∧ version_table 0x0300 = py "s3" ∧ version_table 0xfefd = py "d2"
    ∧ version_table 0xfeff = py "d1"
    ∧ ∀ code, code ∉ [0x0304; 0x0303; 0x0302; 0x0301; 0x0300; 0xfefd; 0xfeff] →
              get_tls_version_string code = py "00".
Proof.
  eexists _, (effective_version client_hello).
  split; [apply calculate_ja4_unfold |]. split; [| split].
  - cbn [a]. unfold section_a.
    rewrite get_tls_version_string_table.
    pose proof (version_table_strings (effective_version client_hello)) as H.
    unfold VERSION_STRINGS in H.
    repeat (apply elem_of_cons in H as [-> | H]; [reflexivity |]).
    by apply elem_of_nil in H.
  - cbn zeta. unfold effective_version.
    fold (real_codes (supported_versions client_hello)).
    destruct (supported_versions client_hello) as [| s0 sv] eqn:Hsv.
    { left. done. }
    destruct (real_codes (s0 :: sv)) as [| r0 real]; [left; done | right].
    apply max_from_spec.
  - repeat (split; [reflexivity |]).
    intros code Hcode. rewrite get_tls_version_string_table. unfold version_table.
    repeat match goal with
    | |- context [code =? ?k] =>
        let E := fresh "E" in
        destruct (code =? k) eqn:E;
        [apply N.eqb_eq in E; subst code; exfalso; apply Hcode; set_solver |]
    end.
    reflexivity.
Qed.

(** *** Sorting *)

Lemma sorted_Sorted l : Sorted N.le (sorted l).
Proof. apply (Sorted_merge_sort N.le). Qed.

Lemma sorted_Permutation l : sorted l ≡ₚ l.
Proof. apply (merge_sort_Permutation N.le). Qed.

(** Sorting forgets the order of its input. *)
Lemma sorted_perm_eq l1 l2 : l1 ≡ₚ l2 → sorted l1 = sorted l2.
Proof.
  intros E. apply (Sorted_unique N.le); [apply sorted_Sorted.. |].
  by rewrite !sorted_Permutation.
Qed.

Lemma Forall_filtered (P Q : N → Prop) `{∀ x, Decision (Q x)} l :
  Forall P l → Forall P (filter Q l).
Proof.
  rewrite !Forall_forall. intros HP x Hx.
  apply list_elem_of_filter in Hx as [_ Hx]. auto.
Qed.

Lemma real_codes_perm l1 l2 : l1 ≡ₚ l2 → real_codes l1 ≡ₚ real_codes l2.
Proof. intros E. unfold real_codes. by rewrite E. Qed.

Lemma format_04x_hex4_list l :
  Forall (λ x, x < 65536) l → format_04x <$> l = hex4 <$> l.
Proof.
  intros Hl. apply Forall_fmap_ext_1.
  eapply Forall_impl; [done |]. apply format_04x_hex4.
Qed.

(** C6. Section B is the first 12 hex characters of the SHA-256 digest of
    the ASCII string made of the cipher suites without GREASE values, in
    ascending order, each as four lowercase hex digits, joined by commas
    (the codes being 16-bit values, as the data model has them). *)
Theorem section_b_hash u client_hello :
  Forall (λ x, x < 65536) (cipher_suites client_hello) →
  ∃ fp l,
    calculate_ja4 u client_hello = Ok fp
    ∧ l ≡ₚ filter (λ x, ¬ is_grease x) (cipher_suites client_hello)
    ∧ Sorted N.le l
    ∧ b fp = sha256_12 (join (py ",") (hex4 <$> l)).
Proof.
  intros H16.
  eexists _, (sorted (real_codes (cipher_suites client_hello))).
  split; [apply calculate_ja4_unfold |].
  split; [apply sorted_Permutation |]. split; [apply sorted_Sorted |].
  cbn [b]. unfold cipher_string. rewrite format_04x_hex4_list; [done |].
  rewrite sorted_Permutation. by apply Forall_filtered.
Qed.

Lemma section_b_hash_witness :
  ∃ fp l,
    calculate_ja4 ascii_only scenario1 = Ok fp
    ∧ l ≡ₚ filter (λ x, ¬ is_grease x) (cipher_suites scenario1)
    ∧ Sorted N.le l
    ∧ b fp = sha256_12 (join (py ",") (hex4 <$> l)).
Proof.
  apply (section_b_hash ascii_only scenario1).
  repeat constructor.
Defined.

(** C7. Section C is the first 12 hex characters of the SHA-256 digest of
    the extensions without GREASE values, SNI and ALPN, in ascending order,
    as comma-joined four-digit hex, followed, exactly when there are
    signature algorithms, by an underscore and the signature algorithms in
    wire order as comma-joined four-digit hex (codes being 16-bit values). *)
Theorem section_c_hash u client_hello :
  Forall (λ x, x < 65536) (extensions client_hello) →
  Forall (λ x, x < 65536) (signature_algorithms client_hello) →
  ∃ fp l,
    calculate_ja4 u client_hello = Ok fp
    ∧ l ≡ₚ filter (λ e, e ≠ 0x0000 ∧ e ≠ 0x0010)
             (filter (λ e, ¬ is_grease e) (extensions client_hello))
    ∧ Sorted N.le l
    ∧ c fp = sha256_12
               (join (py ",") (hex4 <$> l)
                ++ match signature_algorithms client_hello with
                   | [] => []
                   | _ :: _ =>
                       py "_" ++ join (py ",")
                                   (hex4 <$> signature_algorithms client_hello)
                   end).
Proof.
  intros He Hs.
  set (l := sorted (filter (λ e, e ∉ [EXT_SNI; EXT_ALPN])
                      (real_codes (extensions client_hello)))).
  assert (l ≡ₚ filter (λ e, e ≠ 0x0000 ∧ e ≠ 0x0010)
                 (real_codes (extensions client_hello))) as Hl.
  { unfold l. rewrite sorted_Permutation.
    erewrite list_filter_iff; [done |].
    intros e. unfold EXT_SNI, EXT_ALPN.
    rewrite !not_elem_of_cons. pose proof (not_elem_of_nil e). tauto. }
  eexists _, l.
  split; [apply calculate_ja4_unfold |].
  split; [done |]. split; [apply sorted_Sorted |].
  cbn [c]. f_equal. unfold combined, ext_string. fold l.
  assert (format_04x <$> l = hex4 <$> l) as ->.
  { apply format_04x_hex4_list. rewrite Hl. by do 2 apply Forall_filtered. }
  destruct (signature_algorithms client_hello) as [| s0 sigs] eqn:Hsig.
  - by rewrite app_nil_r.
  - by rewrite format_04x_hex4_list.
Qed.

Lemma section_c_hash_witness :
  ∃ fp l,
    calculate_ja4 ascii_only scenario1 = Ok fp
    ∧ l ≡ₚ filter (λ e, e ≠ 0x0000 ∧ e ≠ 0x0010)
             (filter (λ e, ¬ is_grease e) (extensions scenario1))
    ∧ Sorted N.le l
    ∧ c fp = sha256_12
               (join (py ",") (hex4 <$> l)
                ++ match signature_algorithms scenario1 with
                   | [] => []
                   | _ :: _ =>
                       py "_" ++ join (py ",") (hex4 <$> signature_algorithms scenario1)
                   end).
Proof.
  apply (section_c_hash ascii_only scenario1); repeat constructor.
Defined.

(** C9. Permuting the cipher suites or the extensions of a ClientHello
    leaves the fingerprint, hence its full string, unchanged. *)
Theorem calculate_ja4_permutation u client_hello cs es :
  cs ≡ₚ cipher_suites client_hello →
  es ≡ₚ extensions client_hello →
  ∃ fp, calculate_ja4 u client_hello = Ok fp
        ∧ calculate_ja4 u (with_lists client_hello cs es) = Ok fp
        ∧ full <$> calculate_ja4 u (with_lists client_hello cs es)
          = full <$> calculate_ja4 u client_hello.
Proof.
  intros Hcs Hes.
  assert (cipher_string (with_lists client_hello cs es) = cipher_string client_hello) as Eb.
  { unfold cipher_string. cbn [cipher_suites with_lists].
    f_equal. f_equal. by apply sorted_perm_eq, real_codes_perm. }
  assert (combined (with_lists client_hello cs es) = combined client_hello) as Ec.
  { unfold combined, ext_string. cbn [extensions signature_algorithms with_lists].
    assert (sorted (filter (λ e, e ∉ [EXT_SNI; EXT_ALPN]) (real_codes es))
            = sorted (filter (λ e, e ∉ [EXT_SNI; EXT_ALPN])
                        (real_codes (extensions client_hello)))) as ->; [| done].
    apply sorted_perm_eq. by rewrite (real_codes_perm _ _ Hes). }
  assert (section_a u (with_lists client_hello cs es) = section_a u client_hello) as Ea.
  { unfold section_a, cipher_count, ext_count, len.
    cbn [cipher_suites extensions with_lists].
    rewrite (Permutation_length (real_codes_perm _ _ Hcs)).
    rewrite (Permutation_length (real_codes_perm _ _ Hes)). done. }
  eexists. split; [apply calculate_ja4_unfold |].
  rewrite !calculate_ja4_unfold, Ea, Eb, Ec. done.
Qed.

Lemma calculate_ja4_permutation_witness :
  ∃ fp, calculate_ja4 ascii_only scenario1 = Ok fp
        ∧ calculate_ja4 ascii_only
            (with_lists scenario1 [0x1302; 0x1301; 0x1303; 0xc02c; 0xc02b; 0x0a0a]
               [0x0010; 0x0000; 0x002b; 0x000d; 0x0033; 0x1a1a]) = Ok fp
        ∧ full <$> calculate_ja4 ascii_only
            (with_lists scenario1 [0x1302; 0x1301; 0x1303; 0xc02c; 0xc02b; 0x0a0a]
               [0x0010; 0x0000; 0x002b; 0x000d; 0x0033; 0x1a1a])
          = full <$> calculate_ja4 ascii_only scenario1.
Proof.
  apply (calculate_ja4_permutation ascii_only scenario1); apply perm_swap.
Defined.

(** *** Section A, character by character *)

Lemma last_elem_of (l : list N) d : l ≠ [] → List.last l d ∈ l.
Proof.
  induction l as [| x l IH]; [done |]. intros _.
  destruct l as [| y l]; [left |]. right. by apply IH.
Qed.

(** The ALPN code is "00" or two alphanumeric characters. *)
Lemma get_alpn_code_shape u protos :
  get_alpn_code u protos = py "00"
  ∨ matches [isalnum u; isalnum u] (get_alpn_code u protos) = true.
Proof.
  unfold get_alpn_code. destruct protos as [| first_proto _]; [by left |].
  set (alphanumeric := filter _ first_proto).
  assert (∀ ch, ch ∈ alphanumeric → isalnum u ch = true) as Hal.
  { intros ch Hch. apply list_elem_of_filter in Hch as [Hch _].
    by apply Is_true_true. }
  destruct alphanumeric as [| c0 [| c1 rest]] eqn:E; [by left | right..].
  - simpl. rewrite (Hal c0) by left. done.
  - cbn [matches]. rewrite (Hal c0) by left.
    rewrite (Hal (List.last (c0 :: c1 :: rest) c0)) by (by apply last_elem_of).
    done.
Qed.

Lemma get_alpn_code_length u protos : length (get_alpn_code u protos) = 2%nat.
Proof.
  destruct (get_alpn_code_shape u protos) as [-> | H]; [done |].
  by apply matches_length in H.
Qed.

Lemma sni_char_d_or_i client_hello :
  sni_char client_hello = [if truthy (sni client_hello) then 100 else 105].
Proof. unfold sni_char. by destruct (truthy _). Qed.

Lemma cipher_count_small client_hello : cipher_count client_hello < 100.
Proof. unfold cipher_count. lia. Qed.

Lemma ext_count_small client_hello : ext_count client_hello < 100.
Proof. unfold ext_count. lia. Qed.

(** C3 (amended). The fingerprint is [a_b_c] where [a] has exactly 10
    characters: "t", one of the version strings 13, 12, 11, 10, s3, d2, d1,
    00, "d" or "i", two decimal digits, two decimal digits and an ALPN code
    that is "00" or two characters alphanumeric for [str.isalnum]; [b] and
    [c] are 12 lowercase hex characters each. When the version string is
    made of digits and the ALPN code of lowercase letters and digits, the
    full string matches the pattern of the specification. *)
Theorem ja4_format u client_hello :
  ∃ fp v s cc ec al,
    calculate_ja4 u client_hello = Ok fp
    ∧ full fp = a fp ++ py "_" ++ b fp ++ py "_" ++ c fp
    ∧ a fp = py "t" ++ v ++ [s] ++ cc ++ ec ++ al
    ∧ length (a fp) = 10%nat
    ∧ v ∈ VERSION_STRINGS
    ∧ is_d_or_i s = true
    ∧ matches [is_digit; is_digit] cc = true
    ∧ matches [is_digit; is_digit] ec = true
    ∧ (al = py "00" ∨ matches [isalnum u; isalnum u] al = true)
    ∧ matches (replicate 12 is_hex) (b fp) = true
    ∧ matches (replicate 12 is_hex) (c fp) = true
    ∧ (matches [is_digit; is_digit] v = true →
       matches [is_lower_or_digit; is_lower_or_digit] al = true →
       matches JA4_FORMAT (full fp) = true).
Proof.
  set (v := get_tls_version_string (effective_version client_hello)).
  set (s := if truthy (sni client_hello) then 100 else 105).
  set (cc := format_02d (cipher_count client_hello)).
  set (ec := format_02d (ext_count client_hello)).
  set (al := get_alpn_code u (alpn_protocols client_hello)).
  assert (matches [is_digit; is_digit] cc = true) as Hcc
    by apply format_02d_digits, cipher_count_small.
  assert (matches [is_digit; is_digit] ec = true) as Hec
    by apply format_02d_digits, ext_count_small.
  assert (is_d_or_i s = true) as Hs by (unfold s; by destruct (truthy _)).
  assert (section_a u client_hello = py "t" ++ v ++ [s] ++ cc ++ ec ++ al) as Ea.
  { unfold section_a. by rewrite sni_char_d_or_i. }
  eexists _, v, s, cc, ec, al.
  split; [apply calculate_ja4_unfold |]. cbn [full a b c].
  split; [done |]. split; [done |]. split.
  { rewrite Ea, !length_app. unfold v, al.
    rewrite version_string_length, get_alpn_code_length.
    apply matches_length in Hcc, Hec. rewrite Hcc, Hec. done. }
  split.
  { unfold v. rewrite get_tls_version_string_table. apply version_table_strings. }
  do 3 (split; [done |]).
  split; [apply get_alpn_code_shape |].
  do 2 (split; [apply sha256_12_hex |]).
  intros Hv Hal. rewrite Ea. unfold JA4_FORMAT.
  change (py "t" ++ v ++ [s] ++ cc ++ ec ++ al) with
    ([116] ++ v ++ [s] ++ cc ++ ec ++ al).
  rewrite <- !(assoc_L (++)).
  repeat (apply matches_app;
          [first [done | apply sha256_12_hex | by (simpl; rewrite Hs)] |]).
  apply sha256_12_hex.
Qed.

Lemma ja4_format_witness :
  ∃ fp, calculate_ja4 ascii_only scenario1 = Ok fp
        ∧ full fp = py "t13d0505h2_bf5bdbdbea07_c0cb44ba0808"
        ∧ matches JA4_FORMAT (full fp) = true.
Proof.
  destruct (ja4_format ascii_only scenario1)
    as (fp & v & s & cc & ec & al & Hfp & _ & Ha & _ & Hv & _ & Hcc & Hec & _ & _ & _ & Hm).
  exists fp. split; [exact Hfp |].
  rewrite calculate_ja4_unfold in Hfp. apply Ok_inj in Hfp. subst fp.
  cbn [a full] in *.
  split; [vm_compute; reflexivity |].
  apply matches_length in Hcc, Hec.
  destruct cc as [| c1 [| c2 [| ? ?]]]; try discriminate Hcc.
  destruct ec as [| e1 [| e2 [| ? ?]]]; try discriminate Hec.
  unfold VERSION_STRINGS in Hv.
  repeat (apply elem_of_cons in Hv as [-> | Hv];
          [vm_compute in Ha; try discriminate Ha |]);
    [| by apply elem_of_nil in Hv].
  injection Ha as <- <- <- <- <- <-.
  apply Hm; reflexivity.
Defined.

(** C3 (counterexample). No Unicode table makes the fingerprint of an
    SSL 3.0 ClientHello ("ts3i000000_...") match the pattern of the
    specification, nor that of a ClientHello whose ALPN protocol is "H2"
    ("t12i0000H2_..."). *)
Lemma ja4_format_counterexample :
  (¬ ∃ u fp, calculate_ja4 u (bare_hello 0x0300) = Ok fp
             ∧ matches JA4_FORMAT (full fp) = true)
  ∧ (¬ ∃ u fp, calculate_ja4 u capitals_hello = Ok fp
               ∧ matches JA4_FORMAT (full fp) = true).
Proof.
  split; intros (u & fp & Hfp & Hm);
    rewrite calculate_ja4_unfold in Hfp; apply Ok_inj in Hfp; subst fp;
    vm_compute in Hm; discriminate Hm.
Qed.

Example ssl3_full u :
  full <$> calculate_ja4 u (bare_hello 0x0300)
  = Ok (py "ts3i000000_e3b0c44298fc_e3b0c44298fc").
Proof. rewrite calculate_ja4_unfold. vm_compute. reflexivity. Qed.

Example capitals_full u :
  full <$> calculate_ja4 u capitals_hello
  = Ok (py "t12i0000H2_e3b0c44298fc_e3b0c44298fc").
Proof. rewrite calculate_ja4_unfold. vm_compute. reflexivity. Qed.

(** *** GREASE-only lists *)

Lemma real_codes_grease l :
  Forall (λ x, is_grease x = true) l → real_codes l = [].
Proof.
  intros Hl. unfold real_codes.
  induction Hl as [| x l Hx _ IH]; [done |].
  rewrite filter_cons_False; [done |]. rewrite Hx. by intros H; apply H.
Qed.

(** The ten characters of Section A. *)
Lemma section_a_chars u client_hello :
  ∃ v0 v1 c1 c2 e1 e2 a1 a2,
    get_tls_version_string (effective_version client_hello) = [v0; v1]
    ∧ format_02d (cipher_count client_hello) = [c1; c2]
    ∧ format_02d (ext_count client_hello) = [e1; e2]
    ∧ get_alpn_code u (alpn_protocols client_hello) = [a1; a2]
    ∧ section_a u client_hello
      = [116; v0; v1; if truthy (sni client_hello) then 100 else 105;
         c1; c2; e1; e2; a1; a2].
Proof.
  unfold section_a. rewrite sni_char_d_or_i.
  pose proof (version_string_length (effective_version client_hello)) as Hv.
  destruct (get_tls_version_string _) as [| v0 [| v1 [| ? ?]]]; try discriminate Hv.
  pose proof (format_02d_digits _ (cipher_count_small client_hello)) as Hcc.
  pose proof (format_02d_digits _ (ext_count_small client_hello)) as Hec.
  pose proof (get_alpn_code_length u (alpn_protocols client_hello)) as Hal.
  apply matches_length in Hcc, Hec.
  destruct (format_02d (cipher_count client_hello)) as [| c1 [| c2 [| ? ?]]];
    try discriminate Hcc.
  destruct (format_02d (ext_count client_hello)) as [| e1 [| e2 [| ? ?]]];
    try discriminate Hec.
  destruct (get_alpn_code u _) as [| a1 [| a2 [| ? ?]]]; try discriminate Hal.
  by eexists _, _, _, _, _, _, _, _.
Qed.

(** C8 (amended). When the cipher suites and the extensions hold only
    GREASE values, both counts of Section A are 00 and Section B is the
    truncated hash of the empty string, e3b0c44298fc; Section C is that
    hash too when there are no signature algorithms, and otherwise the
    truncated hash of "_" followed by the signature algorithms. *)
Theorem grease_only_fingerprint u client_hello :
  Forall (λ x, is_grease x = true) (cipher_suites client_hello) →
  Forall (λ x, is_grease x = true) (extensions client_hello) →
  ∃ fp,
    calculate_ja4 u client_hello = Ok fp
    ∧ slice (a fp) 4 6 = py "00"
    ∧ slice (a fp) 6 8 = py "00"
    ∧ b fp = sha256_12 []
    ∧ sha256_12 [] = py "e3b0c44298fc"
    ∧ (signature_algorithms client_hello = [] → c fp = sha256_12 [])
    ∧ (signature_algorithms client_hello ≠ [] →
       c fp = sha256_12
                (py "_" ++ join (py ",")
                             (format_04x <$> signature_algorithms client_hello))).
Proof.
  intros Hcs Hes. eexists. split; [apply calculate_ja4_unfold |].
  cbn [a b c].
  destruct (section_a_chars u client_hello)
    as (v0 & v1 & c1 & c2 & e1 & e2 & a1 & a2 & _ & Hcc & Hec & _ & ->).
  unfold cipher_count in Hcc. unfold ext_count in Hec.
  rewrite real_codes_grease in Hcc, Hec by done.
  injection Hcc as <- <-. injection Hec as <- <-.
  assert (cipher_string client_hello = []) as ->.
  { unfold cipher_string. by rewrite real_codes_grease. }
  assert (ext_string client_hello = []) as Hext.
  { unfold ext_string. by rewrite real_codes_grease. }
  do 3 (split; [reflexivity |]). split; [vm_compute; reflexivity |].
  unfold combined. rewrite Hext.
  destruct (signature_algorithms client_hello) as [| s0 sigs]; split.
  - intros _. reflexivity.
  - intros H. by destruct H.
  - intros H. discriminate H.
  - intros _. reflexivity.
Qed.

Lemma grease_only_fingerprint_witness :
  ∃ fp,
    calculate_ja4 ascii_only grease_hello = Ok fp
    ∧ slice (a fp) 4 6 = py "00"
    ∧ slice (a fp) 6 8 = py "00"
    ∧ b fp = sha256_12 []
    ∧ sha256_12 [] = py "e3b0c44298fc"
    ∧ (signature_algorithms grease_hello = [] → c fp = sha256_12 [])
    ∧ (signature_algorithms grease_hello ≠ [] →
       c fp = sha256_12
                (py "_" ++ join (py ",")
                             (format_04x <$> signature_algorithms grease_hello))).
Proof.
  apply (grease_only_fingerprint ascii_only grease_hello);
    repeat constructor.
Defined.

(** C8 (counterexample). A ClientHello with only GREASE cipher suites and
    extensions and one signature algorithm: Section C is the truncated hash
    of "_0403", which is not that of the empty string. *)
Lemma grease_only_counterexample :
  Forall (λ x, is_grease x = true) (cipher_suites grease_hello)
  ∧ Forall (λ x, is_grease x = true) (extensions grease_hello)
  ∧ ¬ ∃ u fp, calculate_ja4 u grease_hello = Ok fp ∧ c fp = sha256_12 [].
Proof.
  split; [repeat constructor |]. split; [repeat constructor |].
  intros (u & fp & Hfp & Hc).
  rewrite calculate_ja4_unfold in Hfp. apply Ok_inj in Hfp. subst fp.
  vm_compute in Hc. discriminate Hc.
Qed.

Example grease_hello_full u :
  full <$> calculate_ja4 u grease_hello
  = Ok (py "t12i000000_e3b0c44298fc_28bec3923df4").
Proof. rewrite calculate_ja4_unfold. vm_compute. reflexivity. Qed.

(** *** The SNI marker *)

(** C10 (amended). The SNI marker is the fourth character of Section A.
    An empty SNI string gives "i", exactly as an absent SNI does; "d" is
    given only for a non-empty SNI string. *)
Theorem sni_marker u client_hello :
  ∃ fp,
    calculate_ja4 u client_hello = Ok fp
    ∧ (sni client_hello = Some [] → a fp !! 3%nat = Some 105)
    ∧ (sni client_hello = None → a fp !! 3%nat = Some 105)
    ∧ (a fp !! 3%nat = Some 100 ↔ ∃ ch s, sni client_hello = Some (ch :: s)).
Proof.
  eexists. split; [apply calculate_ja4_unfold |]. cbn [a].
  destruct (section_a_chars u client_hello)
    as (v0 & v1 & c1 & c2 & e1 & e2 & a1 & a2 & _ & _ & _ & _ & ->).
  cbn [lookup list_lookup].
  destruct (sni client_hello) as [[| ch s] |]; cbn [truthy].
  - split; [done |]. split; [done |]. split; [done |]. by intros (? & ? & ?).
  - split; [done |]. split; [done |]. split; [by eexists _, _ | done].
  - split; [done |]. split; [done |]. split; [done |]. by intros (? & ? & ?).
Qed.

Lemma sni_marker_witness :
  ∃ fp,
    calculate_ja4 ascii_only empty_sni_hello = Ok fp
    ∧ a fp = py "t12i000000"
    ∧ a fp !! 3%nat = Some 105.
Proof.
  destruct (sni_marker ascii_only empty_sni_hello) as (fp & Hfp & Hempty & _).
  exists fp. split; [exact Hfp |]. split; [| apply Hempty; reflexivity].
  rewrite calculate_ja4_unfold in Hfp. apply Ok_inj in Hfp. subst fp.
  vm_compute. reflexivity.
Defined.

(** C10 (counterexample). With an empty SNI string and TLS 1.2, Section A
    is "t12i000000": its third character is "2", the marker "i" comes
    fourth. *)
Lemma sni_marker_counterexample :
  sni empty_sni_hello = Some []
  ∧ ¬ ∃ u fp, calculate_ja4 u empty_sni_hello = Ok fp ∧ a fp !! 2%nat = Some 105.
Proof.
  split; [reflexivity |]. intros (u & fp & Hfp & Hc).
  rewrite calculate_ja4_unfold in Hfp. apply Ok_inj in Hfp. subst fp.
  vm_compute in Hc. discriminate Hc.
Qed.

(** ** The parser *)

(** *** Buffers shorter than the two headers *)


Lemma length_slice {A} (data : list A) lo hi :
  length (slice data lo hi) = (N.to_nat (hi - lo) `min` (length data - N.to_nat lo))%nat.
Proof. unfold slice. by rewrite length_take, length_drop. Qed.

Lemma unpack_I_length s : length s ≠ 4%nat → unpack_I s = Raise struct_error.
Proof. by destruct s as [| ? [| ? [| ? [| ? [| ? ?]]]]]. Qed.

Lemma unpack_H_length s : length s ≠ 2%nat → unpack_H s = Raise struct_error.
Proof. by destruct s as [| ? [| ? [| ? ?]]]. Qed.

Lemma unpack_H_pair s :
  length s = 2%nat → ∃ hi lo, s = [hi; lo] ∧ unpack_H s = Ok (256 * Byte.to_N hi + Byte.to_N lo).
Proof. destruct s as [| hi [| lo [| ? ?]]]; try done. by eexists _, _. Qed.

(** One step of a sequence of statements that may raise. *)
Ltac bind_case :=
  match goal with
  | |- mbind _ ?m = _ =>
      destruct m eqn:?; cbn [mbind result_bind mret result_ret]
  | |- match mbind _ ?m with Ok _ => _ | Raise _ => _ end = _ =>
      destruct m eqn:?; cbn [mbind result_bind mret result_ret]
  end.

Lemma parse_short data : (length data < 9)%nat → parse_client_hello_raw data = None.
Proof.
  intros Hlen. unfold parse_client_hello_raw, parse_body. cbv zeta.
  bind_case; [| done].
  destruct (negb _); [done |].
  do 3 (bind_case; [| done]).
  destruct (negb _); [done |].
  rewrite unpack_I_length; [done |].
  cbn [length]. rewrite length_slice. lia.
Qed.

(** *** The record length is not looked at *)


Lemma ext_loop_step data ext_end offset vs :
  ext_loop data ext_end offset vs =
  if decide (offset < ext_end) then
    match ext_iter data offset vs with
    | Ok (ext_len, vs') => ext_loop data ext_end (offset + (4 + ext_len)) vs'
    | Raise e => Raise e
    end
  else Ok vs.
Proof.
  rewrite ext_loop_equation_1. unfold ext_loop_unfold_clause_1.
  destruct (decide (offset < ext_end)); [| done].
  unfold ext_loop_unfold_clause_1_clause_2.
  by destruct (ext_iter data offset vs) as [[? ?] |].
Qed.

Lemma alpn_loop_step ext_data alpn_list_len alpn_offset alpn_protocols :
  alpn_loop ext_data alpn_list_len alpn_offset alpn_protocols =
  if decide (alpn_offset < 2 + alpn_list_len) then
    match index ext_data alpn_offset with
    | Ok proto_len =>
        match decode (slice ext_data (alpn_offset + 1) (alpn_offset + 1 + proto_len)) with
        | Ok proto =>
            alpn_loop ext_data alpn_list_len (alpn_offset + (1 + proto_len))
                      (alpn_protocols ++ [proto])
        | Raise _ => alpn_protocols
        end
    | Raise _ => alpn_protocols
    end
  else alpn_protocols.
Proof.
  rewrite alpn_loop_equation_1. unfold alpn_loop_unfold_clause_1.
  destruct (decide _); [| done].
  unfold alpn_loop_unfold_clause_1_clause_2.
  destruct (index ext_data alpn_offset); [| done].
  unfold alpn_loop_unfold_clause_1_clause_2_clause_2.
  by destruct (decode _).
Qed.

Section RecordLength.

Context (d d' : bytes) (Hsame : same_but_record_length d d').

Lemma len_same : len d' = len d.
Proof. unfold len. by rewrite (proj1 Hsame). Qed.

Lemma index_same_head i : i < 3 → index d' i = index d i.
Proof.
  intros Hi. unfold index.
  rewrite <- (lookup_take_lt d' 3), <- (lookup_take_lt d 3) by lia.
  by rewrite (proj1 (proj2 Hsame)).
Qed.

Lemma slice_same_head lo hi : hi ≤ 3 → slice d' lo hi = slice d lo hi.
Proof.
  intros Hhi. unfold slice.
  destruct (decide (lo ≤ hi)) as [Hlo | Hlo].
  - rewrite !take_drop_commute.
    replace (N.to_nat lo + N.to_nat (hi - lo))%nat with (N.to_nat hi) by lia.
    replace (N.to_nat hi) with (N.to_nat hi `min` 3)%nat by lia.
    rewrite <- !take_take. by rewrite (proj1 (proj2 Hsame)).
  - replace (N.to_nat (hi - lo)) with 0%nat by lia. done.
Qed.

Lemma drop_same n : (5 ≤ n)%nat → drop n d' = drop n d.
Proof.
  intros Hn. replace n with (5 + (n - 5))%nat by lia.
  rewrite <- !drop_drop. by rewrite (proj2 (proj2 Hsame)).
Qed.

Lemma index_same i : 5 ≤ i → index d' i = index d i.
Proof.
  intros Hi. unfold index.
  replace (N.to_nat i) with (5 + (N.to_nat i - 5))%nat by lia.
  rewrite <- !lookup_drop. by rewrite (proj2 (proj2 Hsame)).
Qed.

Lemma slice_same lo hi : 5 ≤ lo → slice d' lo hi = slice d lo hi.
Proof. intros Hlo. unfold slice. by rewrite drop_same by lia. Qed.

Lemma read_codes_same base idxs acc :
  5 ≤ base → read_codes d' base idxs acc = read_codes d base idxs acc.
Proof.
  intros Hbase. revert acc. induction idxs as [| i idxs IH]; intros acc; [done |].
  cbn [read_codes]. rewrite slice_same by lia.
  destruct (unpack_H _); [apply IH | done].
Qed.

Lemma ext_iter_same offset vs : 5 ≤ offset → ext_iter d' offset vs = ext_iter d offset vs.
Proof.
  intros Hoff. unfold ext_iter.
  rewrite (slice_same offset), (slice_same (offset + 2)) by lia.
  do 2 (bind_case; [| done]).
  by rewrite slice_same by lia.
Qed.

Lemma ext_loop_same ext_end offset vs :
  5 ≤ offset → ext_loop d' ext_end offset vs = ext_loop d ext_end offset vs.
Proof.
  remember (N.to_nat (ext_end - offset)) as n eqn:Hn.
  revert offset vs Hn. induction n as [n IH] using lt_wf_ind.
  intros offset vs Hn Hoff.
  rewrite (ext_loop_step d'), (ext_loop_step d), ext_iter_same by done.
  destruct (decide (offset < ext_end)); [| done].
  destruct (ext_iter d offset vs) as [[ext_len vs'] |]; [| done].
  eapply IH; [| reflexivity |]; lia.
Qed.

End RecordLength.

(** One statement of [parse_body] that reads beyond the record header:
    it reads the same in both buffers. *)
Ltac same_step H :=
  match goal with
  | |- mbind _ (unpack_H (slice ?d' ?lo ?hi)) = _ =>
      rewrite (slice_same _ d' H lo hi) by lia
  | |- mbind _ (unpack_I (_ :: slice ?d' ?lo ?hi)) = _ =>
      rewrite (slice_same _ d' H lo hi) by lia
  | |- mbind _ (index ?d' ?i) = _ =>
      rewrite (index_same _ d' H i) by lia
  end;
  bind_case; [| done].

Lemma parse_body_same d d' :
  same_but_record_length d d' → parse_body d' = parse_body d.
Proof.
  intros Hsame. unfold parse_body. cbv zeta.
  rewrite (index_same_head d d' Hsame 0) by lia. bind_case; [| done].
  destruct (negb _); [done |].
  rewrite (slice_same_head d d' Hsame (0 + 1) (0 + 3)) by lia. bind_case; [| done].
  assert (length (slice d' (0 + 3) (0 + 5)) = length (slice d (0 + 3) (0 + 5))) as Hl.
  { by rewrite !length_slice, (proj1 Hsame). }
  destruct (decide (length (slice d (0 + 3) (0 + 5)) = 2%nat)) as [H2 | H2].
  2: { rewrite (unpack_H_length (slice d' (0 + 3) (0 + 5))),
               (unpack_H_length (slice d (0 + 3) (0 + 5))) by congruence.
       done. }
  destruct (unpack_H_pair _ H2) as (? & ? & _ & ->).
  rewrite <- Hl in H2. destruct (unpack_H_pair _ H2) as (? & ? & _ & ->).
  cbn [mbind result_bind].
  same_step Hsame. destruct (negb _); [done |].
  do 4 same_step Hsame.
  rewrite (read_codes_same d d' Hsame) by lia.
  destruct (read_codes d _ _ _) as [cipher_suites ended].
  bind_case; [| done].
  same_step Hsame.
  rewrite (len_same d d' Hsame).
  destruct (_ <? _); [| done].
  match goal with
  | |- mbind _ (mbind _ (unpack_H (slice ?d' ?lo ?hi))) = _ =>
      rewrite (slice_same _ d' Hsame lo hi) by lia
  end.
  match goal with
  | |- mbind _ (mbind _ ?m) = _ => destruct m; [| done]
  end.
  cbn [mbind result_bind].
  by rewrite (ext_loop_same d d' Hsame) by lia.
Qed.

Lemma parse_ignores_record_length d d' :
  same_but_record_length d d' → parse_client_hello_raw d' = parse_client_hello_raw d.
Proof. intros Hsame. unfold parse_client_hello_raw. by rewrite (parse_body_same d d'). Qed.

(** C1 (amended). A buffer shorter than 9 bytes makes the parser return
    [None], its only failure value, and no ClientHello. The length field of
    the record header is read and not compared with anything: two buffers
    that differ only there are parsed alike, so a record length that
    announces more bytes than are present changes nothing. *)
Theorem parse_short_or_overlong data :
  ((length data < 9)%nat → parse_client_hello_raw data = None)
  ∧ (∀ data', same_but_record_length data data' →
              parse_client_hello_raw data' = parse_client_hello_raw data).
Proof.
  split; [apply parse_short |]. intros data'. apply parse_ignores_record_length.
Qed.

Lemma parse_short_or_overlong_witness :
  parse_client_hello_raw (buffer [0x16; 0x03; 0x01; 0x00; 0x2f; 0x01; 0x00; 0x00]) = None
  ∧ parse_client_hello_raw odd_record
    = parse_client_hello_raw (record_announcing 0x00 0x55).
Proof.
  split.
  - apply (proj1 (parse_short_or_overlong
                    (buffer [0x16; 0x03; 0x01; 0x00; 0x2f; 0x01; 0x00; 0x00]))).
    unfold buffer. rewrite length_fmap. simpl. lia.
  - apply (proj2 (parse_short_or_overlong (record_announcing 0x00 0x55))).
    repeat split; reflexivity.
Defined.

(** C1 (counterexample). The record header of [odd_record] announces 65535
    bytes, the buffer holds 85 after the header, and the parser returns a
    ClientHello. *)
Lemma truncated_record_counterexample :
  unpack_H (slice odd_record 3 5) = Ok 65535
  ∧ len odd_record = 90
  ∧ parse_client_hello_raw odd_record = Some odd_hello.
Proof. repeat split; vm_compute; reflexivity. Qed.

(** *** The list extensions *)

Lemma slice_pair {A} (data : list A) lo :
  slice data lo (lo + 2) = take 2 (drop (N.to_nat lo) data).
Proof. unfold slice. by replace (N.to_nat (lo + 2 - lo)) with 2%nat by lia. Qed.

(** The loop over [range(0, n, 2)] reads the pairs of bytes found from
    [base] on, and stops with what it has when the data run out. *)
Lemma read_codes_pairs data base m i acc :
  (read_codes data base ((λ k, 2 * N.of_nat k) <$> seq i m) acc).1
  = acc ++ take m (be16_pairs (drop (N.to_nat base + 2 * i) data)).
Proof.
  revert i acc. induction m as [| m IH]; intros i acc.
  { by rewrite take_0, app_nil_r. }
  cbn [seq]. rewrite fmap_cons. cbn [read_codes]. rewrite slice_pair.
  replace (N.to_nat (base + 2 * N.of_nat i)) with (N.to_nat base + 2 * i)%nat by lia.
  specialize (IH (S i)).
  replace (N.to_nat base + 2 * S i)%nat with (N.to_nat base + 2 * i + 2)%nat in IH by lia.
  rewrite <- drop_drop in IH.
  destruct (drop (N.to_nat base + 2 * i) data) as [| hi [| lo rest]].
  - by rewrite app_nil_r.
  - by rewrite app_nil_r.
  - cbn [take unpack_H be16_pairs]. rewrite take_0. rewrite IH.
    by rewrite <- (assoc_L (++)).
Qed.

Lemma read_codes_range2 data base n acc :
  (read_codes data base (range2 n) acc).1
  = acc ++ take (N.to_nat ((n + 1) / 2)) (be16_pairs (drop (N.to_nat base) data)).
Proof.
  unfold range2. rewrite read_codes_pairs.
  by replace (N.to_nat base + 2 * 0)%nat with (N.to_nat base) by lia.
Qed.

(** C4 (amended). In the supported_versions extension the parser reads a
    1-byte length in bytes, [n], and then the 2-byte codes that start within
    the next [n] bytes: (n + 1) / 2 of them, or as many as the extension
    data hold. In the signature_algorithms extension it does the same with
    a 2-byte length. Codes already in the list stay in front. *)
Theorem list_extensions_by_length :
  (∀ (b0 : byte) (body : bytes) (acc : list N),
     parse_supported_versions (b0 :: body) acc
     = acc ++ take (N.to_nat ((Byte.to_N b0 + 1) / 2)) (be16_pairs body))
  ∧ (∀ (hi lo : byte) (body : bytes) (acc : list N),
       parse_signature_algorithms (hi :: lo :: body) acc
       = acc ++ take (N.to_nat ((256 * Byte.to_N hi + Byte.to_N lo + 1) / 2))
                  (be16_pairs body)).
Proof.
  split.
  - intros b0 body acc. unfold parse_supported_versions.
    change (index (b0 :: body) 0) with (Ok (Byte.to_N b0)). cbv beta iota.
    by rewrite read_codes_range2.
  - intros hi lo body acc. unfold parse_signature_algorithms.
    change (unpack_H (slice (hi :: lo :: body) 0 2))
      with (Ok (256 * Byte.to_N hi + Byte.to_N lo)).
    cbv beta iota. by rewrite read_codes_range2.
Qed.

(** C4 (counterexample). With the data [02 0304 0303] the prefix read as a
    count announces two versions, and the parser reads one; with the data
    [0002 0403 0503] the prefix read as a count announces two signature
    algorithms, and the parser reads one. *)
Lemma list_extensions_counterexample :
  (parse_supported_versions (buffer [0x02; 0x03; 0x04; 0x03; 0x03]) [] = [0x0304]
   ∧ codes_by_count 1 0x02 (buffer [0x02; 0x03; 0x04; 0x03; 0x03]) = [0x0304; 0x0303])
  ∧ (parse_signature_algorithms (buffer [0x00; 0x02; 0x04; 0x03; 0x05; 0x03]) [] = [0x0403]
     ∧ codes_by_count 2 0x0002 (buffer [0x00; 0x02; 0x04; 0x03; 0x05; 0x03])
       = [0x0403; 0x0503]).
Proof. repeat split; vm_compute; reflexivity. Qed.

(** *** An SNI host name that is not UTF-8 *)

Lemma index_lt data i : (N.to_nat i < length data)%nat → ∃ x, index data i = Ok x.
Proof.
  intros Hi. unfold index.
  destruct (lookup_lt_is_Some_2 data (N.to_nat i) Hi) as [x ->]. by eexists.
Qed.

Lemma unpack_H_Ok_length s x : unpack_H s = Ok x → length s = 2%nat.
Proof. by destruct s as [| ? [| ? [| ? ?]]]. Qed.

(** What the body of the parser can raise: the errors of indexing and of
    [struct.unpack], never a decoding error. *)
Lemma index_raise data i e : index data i = Raise e → e = IndexError.
Proof. unfold index. destruct (data !! N.to_nat i); congruence. Qed.

Lemma unpack_H_raise s e : unpack_H s = Raise e → e = struct_error.
Proof. destruct s as [| ? [| ? [| ? ?]]]; simpl; congruence. Qed.

Lemma unpack_I_raise s e : unpack_I s = Raise e → e = struct_error.
Proof. destruct s as [| ? [| ? [| ? [| ? [| ? ?]]]]]; simpl; congruence. Qed.

Lemma read_codes_raise data base idxs acc e :
  (read_codes data base idxs acc).2 = Raise e → e = struct_error.
Proof.
  revert acc. induction idxs as [| i idxs IH]; intros acc; [done |].
  cbn [read_codes].
  destruct (unpack_H _) eqn:E; [apply IH |].
  cbn [snd]. intros [= <-]. by apply unpack_H_raise in E.
Qed.

Lemma ext_iter_raise data offset vs e :
  ext_iter data offset vs = Raise e → e = struct_error.
Proof.
  unfold ext_iter.
  destruct (unpack_H (slice data offset (offset + 2))) eqn:E1;
    cbn [mbind result_bind]; [| intros [= <-]; by apply unpack_H_raise in E1].
  destruct (unpack_H (slice data (offset + 2) (offset + 4))) eqn:E2;
    cbn [mbind result_bind]; [done | intros [= <-]; by apply unpack_H_raise in E2].
Qed.

Lemma ext_loop_raise data ext_end offset vs e :
  ext_loop data ext_end offset vs = Raise e → e = struct_error.
Proof.
  remember (N.to_nat (ext_end - offset)) as n eqn:Hn.
  revert offset vs Hn. induction n as [n IH] using lt_wf_ind.
  intros offset vs Hn. rewrite ext_loop_step.
  destruct (decide (offset < ext_end)); [| done].
  destruct (ext_iter data offset vs) as [[ext_len vs'] |] eqn:E.
  - eapply IH; [| reflexivity]. lia.
  - intros [= <-]. by apply ext_iter_raise in E.
Qed.

(** One statement of [parse_body], in a hypothesis that says it raised. *)
Ltac raise_case H :=
  match type of H with
  | mbind _ ?m = Raise _ =>
      let E := fresh "E" in
      destruct m eqn:E; cbn [mbind result_bind mret result_ret] in H;
      [| injection H as <-;
         first [ apply index_raise in E | apply unpack_H_raise in E
               | apply unpack_I_raise in E ]; auto ]
  end.

Lemma parse_body_raise data e :
  parse_body data = Raise e → e = IndexError ∨ e = struct_error.
Proof.
  unfold parse_body. cbv zeta. intros H.
  raise_case H. destruct (negb _); [done |].
  do 3 raise_case H. destruct (negb _); [done |].
  do 4 raise_case H.
  destruct (read_codes data _ _ _) as [cipher_suites ended] eqn:Ecodes.
  destruct ended as [[] | e'] eqn:Eended; cbn [mbind result_bind] in H.
  2: { injection H as <-. right.
       eapply read_codes_raise. by erewrite Ecodes. }
  raise_case H.
  destruct (_ <? _); [| done].
  match type of H with
  | mbind _ (mbind _ ?m) = _ =>
      destruct m eqn:Elen; cbn [mbind result_bind] in H;
      [| injection H as <-; apply unpack_H_raise in Elen; auto]
  end.
  destruct (ext_loop data _ _ _) eqn:Eloop; cbn [mbind result_bind] in H; [done |].
  injection H as <-. apply ext_loop_raise in Eloop. auto.
Qed.

(** C2 (amended). An SNI extension whose host-name bytes are not valid
    UTF-8 does not make the parse fail; no typed encoding failure exists.
    The decoding error is caught on the spot: the turn of the extension
    loop records the extension type, leaves [sni] as it was (absent, unless
    an earlier SNI extension set it), and the loop goes on with the next
    extension. What the body of the parser raises, and the function turns
    into [None], is never a decoding error. *)
Theorem sni_not_utf8_skipped :
  (∀ data ext_end offset vs ext_len sni_len,
     offset < ext_end →
     unpack_H (slice data offset (offset + 2)) = Ok EXT_SNI →
     unpack_H (slice data (offset + 2) (offset + 4)) = Ok ext_len →
     unpack_H (slice (slice data (offset + 4) (offset + 4 + ext_len)) 3 5)
     = Ok sni_len →
     decode (slice (slice data (offset + 4) (offset + 4 + ext_len)) 5 (5 + sni_len))
     = Raise UnicodeDecodeError →
     ext_loop data ext_end offset vs
     = ext_loop data ext_end (offset + (4 + ext_len))
         (ExtVars (v_extensions vs ++ [EXT_SNI]) (v_sni vs) (v_alpn_protocols vs)
                  (v_supported_versions vs) (v_signature_algorithms vs)))
  ∧ (∀ data e, parse_body data = Raise e → e = IndexError ∨ e = struct_error).
Proof.
  split; [| apply parse_body_raise].
  intros data ext_end offset vs ext_len sni_len Hlt Htype Hlen Hname Hdecode.
  set (ext_data := slice data (offset + 4) (offset + 4 + ext_len)) in *.
  assert (5 ≤ length ext_data)%nat as Hdata.
  { apply unpack_H_Ok_length in Hname. rewrite length_slice in Hname. lia. }
  assert (0 < ext_len) as Hpos.
  { unfold ext_data in Hdata. rewrite length_slice in Hdata. lia. }
  assert (parse_sni ext_data (v_sni vs) = v_sni vs) as Hsni.
  { unfold parse_sni.
    destruct (unpack_H_pair (slice ext_data 0 2)) as (? & ? & _ & ->).
    { rewrite length_slice. lia. }
    destruct (index_lt ext_data 2) as [? ->]; [lia |].
    cbn [mbind result_bind]. rewrite Hname.
    cbn [mbind result_bind]. by rewrite Hdecode. }
  rewrite ext_loop_step. destruct (decide (offset < ext_end)); [| done].
  unfold ext_iter. rewrite Htype, Hlen. cbn [mbind result_bind mret result_ret].
  fold ext_data. rewrite Hsni.
  apply N.ltb_lt in Hpos. rewrite Hpos. reflexivity.
Qed.

Lemma sni_not_utf8_skipped_witness :
  ext_loop odd_record 90 54 (ExtVars [] None [] [] [])
  = ext_loop odd_record 90 64 (ExtVars [0] None [] [] []).
Proof.
  apply (proj1 sni_not_utf8_skipped odd_record 90 54 (ExtVars [] None [] [] []) 6 1);
    [lia | vm_compute; reflexivity ..].
Defined.

(** C2 (counterexample). The host name of the SNI extension of [odd_record]
    is the byte 0xff, which is not UTF-8, and the parser returns a
    ClientHello, without SNI. *)
Lemma sni_not_utf8_counterexample :
  decode (slice odd_record 63 64) = Raise UnicodeDecodeError
  ∧ slice odd_record 54 64
    = buffer [0x00; 0x00; 0x00; 0x06; 0x00; 0x04; 0x00; 0x00; 0x01; 0xff]
  ∧ parse_client_hello_raw odd_record = Some odd_hello
  ∧ sni odd_hello = None.
Proof. repeat split; vm_compute; reflexivity. Qed.

(** ** More on the fingerprint engine *)

(** X1. The GREASE values are the sixteen 16-bit codes 0x?A?A: a value is
    GREASE exactly when its two bytes are equal and their low nibble is
    0xA. *)
Theorem is_grease_pattern v :
  is_grease v = true
  ↔ v < 65536 ∧ v / 256 = v mod 256 ∧ (v mod 256) mod 16 = 10.
Proof.
  unfold is_grease. rewrite bool_decide_eq_true. unfold GREASE_VALUES.
  rewrite !elem_of_union, !elem_of_singleton. split.
  - intros H. repeat (destruct H as [H | H]; [| subst v; vm_compute; done]).
    subst v. vm_compute. done.
  - intros (Hlt & Hbytes & Hnib).
    assert (∃ k, k < 16 ∧ v = 2570 + 4112 * k) as (k & Hk & ->).
    { exists ((v mod 256) / 16). divmod. }
    clear Hlt Hbytes Hnib.
    assert (k = 0 ∨ k = 1 ∨ k = 2 ∨ k = 3 ∨ k = 4 ∨ k = 5 ∨ k = 6 ∨ k = 7
            ∨ k = 8 ∨ k = 9 ∨ k = 10 ∨ k = 11 ∨ k = 12 ∨ k = 13 ∨ k = 14
            ∨ k = 15) as Hcases by lia.
    repeat (destruct Hcases as [-> | Hcases]; [vm_compute; tauto |]).
    subst k. vm_compute. tauto.
Qed.

Lemma real_codes_nil_of_nil l : l = [] → real_codes l = [].
Proof. by intros ->. Qed.

(** The effective version only looks at the values that are not GREASE. *)
Lemma effective_version_real client_hello :
  effective_version client_hello
  = match real_codes (supported_versions client_hello) with
    | v :: vs => max_from v vs
    | [] => version client_hello
    end.
Proof.
  unfold effective_version.
  by destruct (supported_versions client_hello).
Qed.

Lemma max_from_perm x l y k : x :: l ≡ₚ y :: k → max_from x l = max_from y k.
Proof.
  intros E.
  destruct (max_from_spec x l) as [Hin1 Hmax1].
  destruct (max_from_spec y k) as [Hin2 Hmax2].
  apply N.le_antisymm.
  - apply Hmax2. by rewrite <- E.
  - apply Hmax1. by rewrite E.
Qed.

Lemma effective_version_perm ch1 ch2 :
  version ch1 = version ch2 →
  real_codes (supported_versions ch1) ≡ₚ real_codes (supported_versions ch2) →
  effective_version ch1 = effective_version ch2.
Proof.
  intros Hv E. rewrite !effective_version_real.
  destruct (real_codes (supported_versions ch1)) as [| x l],
           (real_codes (supported_versions ch2)) as [| y k].
  - done.
  - by apply Permutation_nil_cons in E.
  - symmetry in E. by apply Permutation_nil_cons in E.
  - by apply max_from_perm.
Qed.

(** X2. GREASE values never influence the fingerprint: two ClientHellos
    that differ only in their cipher suites, extensions and supported
    versions, and whose values other than GREASE are the same up to order in
    each of the three lists, have the same fingerprint. *)
Theorem grease_never_counts u client_hello cs es sv :
  filter (λ x, ¬ is_grease x) cs
    ≡ₚ filter (λ x, ¬ is_grease x) (cipher_suites client_hello) →
  filter (λ x, ¬ is_grease x) es
    ≡ₚ filter (λ x, ¬ is_grease x) (extensions client_hello) →
  filter (λ x, ¬ is_grease x) sv
    ≡ₚ filter (λ x, ¬ is_grease x) (supported_versions client_hello) →
  calculate_ja4 u (with_code_lists client_hello cs es sv)
  = calculate_ja4 u client_hello.
Proof.
  intros Hcs Hes Hsv. fold (real_codes cs) in Hcs. fold (real_codes es) in Hes.
  fold (real_codes sv) in Hsv.
  fold (real_codes (cipher_suites client_hello)) in Hcs.
  fold (real_codes (extensions client_hello)) in Hes.
  fold (real_codes (supported_versions client_hello)) in Hsv.
  set (ch' := with_code_lists client_hello cs es sv).
  assert (cipher_string ch' = cipher_string client_hello) as Eb.
  { unfold cipher_string. cbn [cipher_suites ch' with_code_lists].
    by rewrite (sorted_perm_eq _ _ Hcs). }
  assert (combined ch' = combined client_hello) as Ec.
  { unfold combined, ext_string.
    cbn [extensions signature_algorithms ch' with_code_lists].
    assert (sorted (filter (λ e, e ∉ [EXT_SNI; EXT_ALPN]) (real_codes es))
            = sorted (filter (λ e, e ∉ [EXT_SNI; EXT_ALPN])
                        (real_codes (extensions client_hello)))) as ->; [| done].
    apply sorted_perm_eq. by rewrite Hes. }
  assert (section_a u ch' = section_a u client_hello) as Ea.
  { unfold section_a, cipher_count, ext_count, sni_char, len.
    rewrite (effective_version_perm ch' client_hello) by done.
    cbn [cipher_suites extensions sni alpn_protocols ch' with_code_lists].
    by rewrite (Permutation_length Hcs), (Permutation_length Hes). }
  by rewrite !calculate_ja4_unfold, Ea, Eb, Ec.
Qed.

Lemma grease_never_counts_witness :
  calculate_ja4 ascii_only
    (with_code_lists scenario1
       [0x2a2a; 0x1302; 0x1301; 0x1303; 0xc02c; 0xfafa; 0xc02b]
       [0x0000; 0x0010; 0x002b; 0x000d; 0x0033]
       [0x3a3a])
  = calculate_ja4 ascii_only scenario1.
Proof.
  apply (grease_never_counts ascii_only scenario1);
    vm_compute; [apply perm_swap | reflexivity | reflexivity].
Defined.

(** X3. The fingerprint depends on the SNI only through its presence (a
    non-empty string) and on the ALPN protocols only through the first of
    them: the host name itself and the later protocols never enter it. *)
Theorem names_never_count u client_hello name protos :
  truthy name = truthy (sni client_hello) →
  head protos = head (alpn_protocols client_hello) →
  calculate_ja4 u (with_names client_hello name protos)
  = calculate_ja4 u client_hello.
Proof.
  intros Hsni Halpn. rewrite !calculate_ja4_unfold.
  assert (section_a u (with_names client_hello name protos)
          = section_a u client_hello) as ->; [| done].
  unfold section_a, sni_char. cbn [sni alpn_protocols with_names].
  rewrite Hsni. do 5 f_equal.
  unfold get_alpn_code.
  destruct protos as [| p protos'], (alpn_protocols client_hello) as [| q protos''];
    simpl in Halpn; try done.
  by injection Halpn as ->.
Qed.

Lemma names_never_count_witness :
  calculate_ja4 ascii_only
    (with_names scenario1 (Some (py "other.example.org")) [py "h2"; py "spdy/3"])
  = calculate_ja4 ascii_only scenario1.
Proof. apply (names_never_count ascii_only scenario1); reflexivity. Defined.

(** X4. The two counts of Section A are the decimal digits of the number
    of cipher suites and of extensions that are not GREASE, and they
    saturate: from 99 values on, the field reads "99". *)
Theorem counts_saturate u client_hello :
  ∃ fp,
    calculate_ja4 u client_hello = Ok fp
    ∧ (let n := N.min (len (filter (λ x, ¬ is_grease x) (cipher_suites client_hello))) 99 in
       slice (a fp) 4 6 = [48 + n / 10; 48 + n mod 10])
    ∧ (let n := N.min (len (filter (λ x, ¬ is_grease x) (extensions client_hello))) 99 in
       slice (a fp) 6 8 = [48 + n / 10; 48 + n mod 10])
    ∧ (99 ≤ len (filter (λ x, ¬ is_grease x) (cipher_suites client_hello)) →
       slice (a fp) 4 6 = py "99")
    ∧ (99 ≤ len (filter (λ x, ¬ is_grease x) (extensions client_hello)) →
       slice (a fp) 6 8 = py "99").
Proof.
  eexists. split; [apply calculate_ja4_unfold |]. cbn [a]. cbv zeta.
  fold (real_codes (cipher_suites client_hello)).
  fold (real_codes (extensions client_hello)).
  fold (cipher_count client_hello). fold (ext_count client_hello).
  destruct (section_a_chars u client_hello)
    as (v0 & v1 & c1 & c2 & e1 & e2 & a1 & a2 & _ & Hcc & Hec & _ & ->).
  rewrite format_02d_two in Hcc by apply cipher_count_small.
  rewrite format_02d_two in Hec by apply ext_count_small.
  injection Hcc as <- <-. injection Hec as <- <-.
  assert (∀ d, d < 10 → digit_char d = 48 + d) as Hd.
  { intros d Hlt. unfold digit_char. apply N.ltb_lt in Hlt. by rewrite Hlt. }
  pose proof (cipher_count_small client_hello).
  pose proof (ext_count_small client_hello).
  assert (slice [116; v0; v1; if truthy (sni client_hello) then 100 else 105;
                 digit_char (cipher_count client_hello / 10);
                 digit_char (cipher_count client_hello mod 10);
                 digit_char (ext_count client_hello / 10);
                 digit_char (ext_count client_hello mod 10); a1; a2] 4 6
          = [48 + cipher_count client_hello / 10; 48 + cipher_count client_hello mod 10])
    as E1.
  { rewrite <- !Hd by divmod. reflexivity. }
  assert (slice [116; v0; v1; if truthy (sni client_hello) then 100 else 105;
                 digit_char (cipher_count client_hello / 10);
                 digit_char (cipher_count client_hello mod 10);
                 digit_char (ext_count client_hello / 10);
                 digit_char (ext_count client_hello mod 10); a1; a2] 6 8
          = [48 + ext_count client_hello / 10; 48 + ext_count client_hello mod 10])
    as E2.
  { rewrite <- !Hd by divmod. reflexivity. }
  split; [exact E1 |]. split; [exact E2 |]. split.
  - intros Hmany. rewrite E1. unfold cipher_count.
    by replace (N.min (len (real_codes (cipher_suites client_hello))) 99) with 99 by lia.
  - intros Hmany. rewrite E2. unfold ext_count.
    by replace (N.min (len (real_codes (extensions client_hello))) 99) with 99 by lia.
Qed.

Lemma counts_saturate_witness :
  ∃ fp,
    calculate_ja4 ascii_only (with_lists scenario1 (replicate 120 0x1301) []) = Ok fp
    ∧ slice (a fp) 4 6 = py "99".
Proof.
  destruct (counts_saturate ascii_only (with_lists scenario1 (replicate 120 0x1301) []))
    as (fp & Hfp & _ & _ & Hmany & _).
  exists fp. split; [exact Hfp |]. apply Hmany. vm_compute. discriminate.
Defined.

(** *** The underscores of the full string *)

Lemma split_no_sep sep s : Forall (λ ch, ch ≠ sep) s → split sep s = [s].
Proof.
  induction 1 as [| ch s Hch _ IH]; [done |].
  cbn [split]. apply N.eqb_neq in Hch. by rewrite Hch, IH.
Qed.

Lemma split_app sep s1 s2 :
  Forall (λ ch, ch ≠ sep) s1 → split sep (s1 ++ sep :: s2) = s1 :: split sep s2.
Proof.
  induction 1 as [| ch s Hch _ IH].
  - cbn [app split]. by rewrite N.eqb_refl.
  - cbn [app split]. apply N.eqb_neq in Hch. by rewrite Hch, IH.
Qed.

Lemma is_hex_not_underscore ch : is_hex ch = true → ch ≠ 95.
Proof.
  unfold is_hex, is_digit, in_range.
  rewrite orb_true_iff, !andb_true_iff, !N.leb_le. lia.
Qed.

Lemma matches_Forall p n s :
  matches (replicate n p) s = true → Forall (λ ch, p ch = true) s.
Proof.
  revert s. induction n as [| n IH]; intros [| ch s]; simpl; try done.
  rewrite andb_true_iff. intros [? ?]. constructor; auto.
Qed.

Lemma sha256_12_no_underscore s : Forall (λ ch, ch ≠ 95) (sha256_12 s).
Proof.
  eapply Forall_impl; [apply (matches_Forall is_hex 12), sha256_12_hex |].
  apply is_hex_not_underscore.
Qed.

Lemma isalnum_not_underscore u ch : isalnum u ch = true → ch ≠ 95.
Proof. intros H ->. discriminate H. Qed.

Lemma section_a_no_underscore u client_hello :
  Forall (λ ch, ch ≠ 95) (section_a u client_hello).
Proof.
  destruct (section_a_chars u client_hello)
    as (v0 & v1 & c1 & c2 & e1 & e2 & a1 & a2 & Hv & Hcc & Hec & Hal & ->).
  assert (Forall (λ ch, ch ≠ 95) [v0; v1]) as Hv'.
  { rewrite <- Hv, get_tls_version_string_table.
    pose proof (version_table_strings (effective_version client_hello)) as H.
    unfold VERSION_STRINGS in H.
    repeat (apply elem_of_cons in H as [-> | H];
            [by repeat (constructor; [discriminate |]) |]).
    by apply elem_of_nil in H. }
  assert (Forall (λ ch, ch ≠ 95) [c1; c2]) as Hcc'.
  { rewrite <- Hcc.
    pose proof (format_02d_digits _ (cipher_count_small client_hello)) as H.
    apply (matches_Forall is_digit 2) in H.
    eapply Forall_impl; [exact H |]. intros ch Hd. apply is_hex_not_underscore.
    unfold is_hex. by rewrite Hd. }
  assert (Forall (λ ch, ch ≠ 95) [e1; e2]) as Hec'.
  { rewrite <- Hec.
    pose proof (format_02d_digits _ (ext_count_small client_hello)) as H.
    apply (matches_Forall is_digit 2) in H.
    eapply Forall_impl; [exact H |]. intros ch Hd. apply is_hex_not_underscore.
    unfold is_hex. by rewrite Hd. }
  assert (Forall (λ ch, ch ≠ 95) [a1; a2]) as Hal'.
  { rewrite <- Hal.
    destruct (get_alpn_code_shape u (alpn_protocols client_hello)) as [-> | H].
    - by repeat (constructor; [discriminate |]).
    - apply (matches_Forall (isalnum u) 2) in H.
      eapply Forall_impl; [exact H |]. apply isalnum_not_underscore. }
  inv Hv'. inv Hcc'. inv Hec'. inv Hal'.
  repeat match goal with H : Forall _ [_] |- _ => inv H end.
  repeat constructor; try done. by destruct (truthy _).
Qed.

(** X5. The full string has exactly two underscores, those that join the
    three sections: splitting it on "_" gives back Section A, Section B and
    Section C, for every ClientHello. *)
Theorem full_splits u client_hello :
  ∃ fp, calculate_ja4 u client_hello = Ok fp
        ∧ split 95 (full fp) = [a fp; b fp; c fp].
Proof.
  eexists. split; [apply calculate_ja4_unfold |]. cbn [full a b c].
  change (py "_") with [95]. cbn [app].
  rewrite split_app by apply section_a_no_underscore.
  rewrite split_app by apply sha256_12_no_underscore.
  by rewrite split_no_sep by apply sha256_12_no_underscore.
Qed.

(** *** The ALPN code *)

Lemma filter_none_alnum u s :
  Forall (λ ch, isalnum u ch = false) s → filter (λ ch, isalnum u ch) s = [].
Proof.
  induction 1 as [| ch s Hch _ IH]; [done |].
  rewrite filter_cons_False; [done |]. rewrite Hch. intros H. exact H.
Qed.

Lemma filter_one_alnum u ch :
  isalnum u ch = true → filter (λ ch, isalnum u ch) [ch] = [ch].
Proof. intros H. rewrite filter_cons_True; [done |]. by rewrite H. Qed.

(** X6. The ALPN code is read off the first protocol only, whatever
    follows it: its first and its last alphanumeric character, wherever
    they stand among other characters; the only alphanumeric character
    twice when there is one; "00" when there is none. *)
Theorem alpn_code_first_last u :
  (∀ pre c0 mid c1 post rest,
     Forall (λ ch, isalnum u ch = false) pre →
     Forall (λ ch, isalnum u ch = false) post →
     isalnum u c0 = true → isalnum u c1 = true →
     get_alpn_code u ((pre ++ [c0] ++ mid ++ [c1] ++ post) :: rest) = [c0; c1])
  ∧ (∀ pre c0 post rest,
       Forall (λ ch, isalnum u ch = false) pre →
       Forall (λ ch, isalnum u ch = false) post →
       isalnum u c0 = true →
       get_alpn_code u ((pre ++ [c0] ++ post) :: rest) = [c0; c0])
  ∧ (∀ proto rest,
       Forall (λ ch, isalnum u ch = false) proto →
       get_alpn_code u (proto :: rest) = py "00").
Proof.
  split; [| split].
  - intros pre c0 mid c1 post rest Hpre Hpost H0 H1. unfold get_alpn_code.
    rewrite !filter_app, (filter_none_alnum u pre), (filter_none_alnum u post),
      !filter_one_alnum by done.
    rewrite app_nil_r. cbn [app].
    destruct (filter (λ ch, isalnum u ch) mid) as [| m0 ms] eqn:Hmid; [done |].
    cbn [app]. f_equal. f_equal.
    change (c0 :: m0 :: ms ++ [c1]) with ((c0 :: m0 :: ms) ++ [c1]).
    apply List.last_last.
  - intros pre c0 post rest Hpre Hpost H0. unfold get_alpn_code.
    by rewrite !filter_app, (filter_none_alnum u pre), (filter_none_alnum u post),
      !filter_one_alnum by done.
  - intros proto rest Hproto. unfold get_alpn_code.
    by rewrite filter_none_alnum.
Qed.

Lemma alpn_code_first_last_witness :
  get_alpn_code ascii_only [py "http/1.1"; py "h2"] = py "h1"
  ∧ get_alpn_code ascii_only [py "-x-"] = py "xx"
  ∧ get_alpn_code ascii_only [py "/."; py "h2"] = py "00".
Proof.
  split; [| split].
  - apply (proj1 (alpn_code_first_last ascii_only) [] 104 (py "ttp/1.") 49 []);
      by repeat constructor.
  - apply (proj1 (proj2 (alpn_code_first_last ascii_only)) (py "-") 120 (py "-"));
      by repeat constructor.
  - apply (proj2 (proj2 (alpn_code_first_last ascii_only))). by repeat constructor.
Defined.

(** *** The truncated hash *)

Lemma mapM_encode_None s :
  mapM utf8_encode_char s = None ↔ ∃ ch, ch ∈ s ∧ utf8_encode_char ch = None.
Proof.
  induction s as [| ch s IH].
  - split; [done |]. intros (? & H & _). by apply elem_of_nil in H.
  - cbn [mapM]. destruct (utf8_encode_char ch) as [bs |] eqn:E.
    + cbn [mbind option_bind]. destruct (mapM utf8_encode_char s) as [bss |] eqn:E'.
      * cbn. split; [done |]. intros (x & Hx & Hnone).
        apply elem_of_cons in Hx as [-> | Hx]; [congruence |].
        assert (Some bss = None) as H; [| done].
        apply IH. eauto.
      * cbn. split; [| done]. intros _.
        destruct (proj1 IH eq_refl) as (x & Hx & Hnone).
        exists x. split; [by right | done].
    + cbn. split; [| done]. intros _. exists ch. split; [left | done].
Qed.

Lemma utf8_encode_char_None ch :
  ch < 0x110000 → (utf8_encode_char ch = None ↔ is_surrogate ch = true).
Proof.
  intros Hch. unfold utf8_encode_char, is_surrogate.
  destruct (ch <? 128) eqn:E1.
  { apply N.ltb_lt in E1. split; [done |].
    rewrite andb_true_iff, !N.leb_le. lia. }
  destruct (ch <? 2048) eqn:E2.
  { apply N.ltb_lt in E2. split; [done |].
    rewrite andb_true_iff, !N.leb_le. lia. }
  destruct ((55296 <=? ch) && (ch <=? 57343)) eqn:E3; [done |].
  destruct (ch <? 65536) eqn:E4; [done |].
  apply N.ltb_lt in Hch. rewrite Hch. done.
Qed.

Lemma hexdigest_12_hex msg :
  matches (replicate 12 is_hex) (take 12 (SHA256.hexdigest msg)) = true.
Proof.
  assert (length (take 12 (SHA256.hexdigest msg)) = 12%nat) as Hl.
  { by rewrite length_take, hexdigest_length. }
  rewrite <- Hl at 1. apply matches_replicate, Forall_take, hexdigest_is_hex.
Qed.

(** X7. [compute_hash] fails only on a string that cannot be encoded: it
    raises [UnicodeEncodeError] exactly when the string holds a surrogate
    code point, and otherwise returns 12 lowercase hex characters. *)
Theorem compute_hash_total_but_surrogates data :
  Forall (λ ch, ch < 0x110000) data →
  (compute_hash data = Raise UnicodeEncodeError
   ↔ ∃ ch, ch ∈ data ∧ is_surrogate ch = true)
  ∧ ((∀ ch, ch ∈ data → is_surrogate ch = false) →
     ∃ h, compute_hash data = Ok h ∧ matches (replicate 12 is_hex) h = true).
Proof.
  intros Hrange. rewrite Forall_forall in Hrange.
  assert (mapM utf8_encode_char data = None
          ↔ ∃ ch, ch ∈ data ∧ is_surrogate ch = true) as Hnone.
  { rewrite mapM_encode_None. split; intros (ch & Hin & H); exists ch;
      (split; [done |]); by apply utf8_encode_char_None; auto. }
  unfold compute_hash, encode. split.
  - destruct (mapM utf8_encode_char data) as [bs |] eqn:E.
    + cbn. split; [done |]. intros H. apply Hnone in H. done.
    + cbn. split; [| done]. intros _. by apply Hnone.
  - intros Hnot. destruct (mapM utf8_encode_char data) as [bs |] eqn:E.
    + cbn. eexists. split; [done |]. apply hexdigest_12_hex.
    + destruct (proj1 Hnone eq_refl) as (ch & Hin & Hs).
      rewrite (Hnot ch Hin) in Hs. done.
Qed.

Lemma compute_hash_total_but_surrogates_witness :
  compute_hash [104; 0xD800] = Raise UnicodeEncodeError
  ∧ ∃ h, compute_hash [0x20AC; 104] = Ok h ∧ matches (replicate 12 is_hex) h = true.
Proof.
  split.
  - apply (proj1 (compute_hash_total_but_surrogates [104; 0xD800]
                    ltac:(repeat constructor))).
    exists 0xD800. split; [| reflexivity]. right. left.
  - apply (proj2 (compute_hash_total_but_surrogates [0x20AC; 104]
                    ltac:(repeat constructor))).
    intros ch Hin. apply elem_of_cons in Hin as [-> | Hin]; [reflexivity |].
    apply elem_of_cons in Hin as [-> | Hin]; [reflexivity |].
    by apply elem_of_nil in Hin.
Defined.

(** ** More on the parser *)

(** *** What a successful parse has read *)

Lemma index_Ok_lt data i x : index data i = Ok x → (N.to_nat i < length data)%nat.
Proof.
  unfold index. destruct (data !! N.to_nat i) eqn:E; [| done].
  intros _. by apply lookup_lt_Some in E.
Qed.

(** One statement of [parse_body], in a hypothesis that says it returned. *)
Ltac ok_case H :=
  match type of H with
  | mbind _ ?m = Ok _ =>
      let E := fresh "E" in
      destruct m eqn:E; cbn [mbind result_bind mret result_ret] in H;
      [| discriminate H]
  end.

(** The fields a ClientHello was read from, when the parser returns one. *)
Lemma parse_Some data ch :
  parse_client_hello_raw data = Some ch →
  ∃ sid_len cs_len comp_len vs,
    index data 0 = Ok 0x16
    ∧ index data 5 = Ok 0x01
    ∧ unpack_H (slice data 9 11) = Ok (version ch)
    ∧ index data 43 = Ok sid_len
    ∧ unpack_H (slice data (44 + sid_len) (44 + sid_len + 2)) = Ok cs_len
    ∧ read_codes data (46 + sid_len) (range2 cs_len) [] = (cipher_suites ch, Ok ())
    ∧ index data (46 + sid_len + cs_len) = Ok comp_len
    ∧ (if 47 + sid_len + cs_len + comp_len <? len data
       then ∃ extensions_len,
              unpack_H (slice data (47 + sid_len + cs_len + comp_len)
                          (47 + sid_len + cs_len + comp_len + 2))
              = Ok extensions_len
              ∧ ext_loop data (49 + sid_len + cs_len + comp_len + extensions_len)
                  (49 + sid_len + cs_len + comp_len) no_extensions = Ok vs
       else vs = no_extensions)
    ∧ extensions ch = v_extensions vs
    ∧ sni ch = v_sni vs
    ∧ alpn_protocols ch = v_alpn_protocols vs
    ∧ supported_versions ch = v_supported_versions vs
    ∧ signature_algorithms ch = v_signature_algorithms vs.
Proof.
  unfold parse_client_hello_raw.
  destruct (parse_body data) as [r |] eqn:H; [| done]. intros ->.
  unfold parse_body in H. cbv zeta in H.
  ok_case H. destruct (x =? 22) eqn:Etype; [| discriminate H]. cbn [negb] in H.
  apply N.eqb_eq in Etype. subst x.
  do 3 ok_case H.
  match type of H with
  | context [negb (?y =? 1)] =>
      destruct (y =? 1) eqn:Ehs; [| discriminate H]; cbn [negb] in H;
      apply N.eqb_eq in Ehs; subst y
  end.
  do 4 ok_case H.
  match type of H with
  | context [read_codes data ?base ?idxs []] =>
      destruct (read_codes data base idxs []) as [cs ended] eqn:Ecodes
  end.
  destruct ended as [[] |]; cbn [mbind result_bind] in H; [| discriminate H].
  ok_case H.
  match type of H with
  | mbind _ ?m = Ok _ => destruct m as [vs |] eqn:Eext;
      cbn [mbind result_bind mret result_ret] in H; [| discriminate H]
  end.
  apply Ok_inj in H. apply (inj Some) in H. subst ch. cbn.
  match goal with
  | E1 : index data (0 + 5 + 4 + 2 + 32) = Ok ?sid,
    E2 : unpack_H (slice data (0 + 5 + 4 + 2 + 32 + (1 + ?sid)) _) = Ok ?cl,
    E3 : index data (0 + 5 + 4 + 2 + 32 + (1 + ?sid) + 2 + ?cl) = Ok ?comp |- _ =>
      exists sid, cl, comp, vs;
      replace (0 + 5 + 4 + 2 + 32 + (1 + sid) + 2 + cl + (1 + comp))
        with (47 + sid + cl + comp) in Eext by lia;
      replace (47 + sid + cl + comp + 2 + 0) with (49 + sid + cl + comp) in Eext by lia;
      replace (0 + 5 + 4 + 2 + 32 + (1 + sid) + 2 + cl) with (46 + sid + cl) in E3 by lia;
      replace (0 + 5 + 4 + 2 + 32 + (1 + sid) + 2) with (46 + sid) in Ecodes by lia;
      replace (0 + 5 + 4 + 2 + 32 + (1 + sid)) with (44 + sid) in E2 by lia
  end.
  repeat split; try done.
  destruct (_ <? _); [| by apply Ok_inj in Eext].
  match type of Eext with
  | mbind _ ?m = Ok _ => destruct m as [extensions_len |] eqn:Elen;
      cbn [mbind result_bind] in Eext; [| discriminate Eext]
  end.
  exists extensions_len. split; [done |].
  rewrite <- Eext. f_equal; lia.
Qed.

(** X8. The parser returns no ClientHello for a record that is not a
    handshake record (first byte other than 0x16) or whose handshake message
    is not a ClientHello (byte 5 other than 0x01). *)
Theorem parse_rejects_other_types data :
  (∀ x, index data 0 = Ok x → x ≠ 0x16 → parse_client_hello_raw data = None)
  ∧ (∀ x, index data 5 = Ok x → x ≠ 0x01 → parse_client_hello_raw data = None).
Proof.
  split; intros x Hx Hne;
    destruct (parse_client_hello_raw data) as [ch |] eqn:Hp; try done;
    destruct (parse_Some data ch Hp) as (? & ? & ? & ? & H0 & H5 & _);
    congruence.
Qed.

Lemma parse_rejects_other_types_witness :
  parse_client_hello_raw (buffer [0x17; 0x03; 0x03; 0x00; 0x01; 0x00]) = None.
Proof.
  apply (proj1 (parse_rejects_other_types
                  (buffer [0x17; 0x03; 0x03; 0x00; 0x01; 0x00])) 0x17);
    [reflexivity | discriminate].
Defined.

(** X9. The parser needs 47 bytes: it returns no ClientHello for a shorter
    buffer, and there is a buffer of 47 bytes that it accepts. *)
Theorem parse_needs_47_bytes :
  (∀ data, (length data < 47)%nat → parse_client_hello_raw data = None)
  ∧ length smallest_record = 47%nat
  ∧ parse_client_hello_raw smallest_record = Some (bare_hello 0x0303).
Proof.
  split; [| split; vm_compute; reflexivity].
  intros data Hlen.
  destruct (parse_client_hello_raw data) as [ch |] eqn:Hp; [| done].
  destruct (parse_Some data ch Hp)
    as (sid_len & cs_len & comp_len & vs & _ & _ & _ & _ & _ & _ & Hcomp & _).
  apply index_Ok_lt in Hcomp. lia.
Qed.

Lemma parse_needs_47_bytes_witness :
  parse_client_hello_raw (take 46 smallest_record) = None.
Proof.
  apply (proj1 parse_needs_47_bytes). rewrite length_take. lia.
Defined.

(** *** Wire order *)

Lemma read_codes_Ok_length data base idxs acc l :
  read_codes data base idxs acc = (l, Ok ()) →
  length l = (length acc + length idxs)%nat.
Proof.
  revert acc. induction idxs as [| i idxs IH]; intros acc; cbn [read_codes].
  - intros [= <-]. simpl. lia.
  - destruct (unpack_H _); [| done]. intros H. apply IH in H.
    rewrite length_app in H. simpl in *. lia.
Qed.

Lemma range2_length n : length (range2 n) = N.to_nat ((n + 1) / 2).
Proof. unfold range2. by rewrite length_fmap, length_seq. Qed.

(** X10. The parser keeps the cipher suites as they are on the wire: when it
    returns a ClientHello, the version is the big-endian pair at bytes 9-10
    and the cipher suites are the big-endian pairs that follow the cipher
    length field, in order, with nothing filtered, sorted or merged; for a
    length field [n] there are exactly (n + 1) / 2 of them. *)
Theorem parsed_cipher_suites data ch :
  parse_client_hello_raw data = Some ch →
  ∃ sid_len cs_len,
    index data 43 = Ok sid_len
    ∧ unpack_H (slice data (44 + sid_len) (44 + sid_len + 2)) = Ok cs_len
    ∧ cipher_suites ch
      = take (N.to_nat ((cs_len + 1) / 2))
          (be16_pairs (drop (N.to_nat (46 + sid_len)) data))
    ∧ length (cipher_suites ch) = N.to_nat ((cs_len + 1) / 2)
    ∧ be16_pairs (slice data 9 11) = [version ch].
Proof.
  intros Hp.
  destruct (parse_Some data ch Hp)
    as (sid_len & cs_len & comp_len & vs & _ & _ & Hv & Hsid & Hlen & Hcodes & _).
  exists sid_len, cs_len. split; [done |]. split; [done |].
  split; [| split].
  - pose proof (read_codes_range2 data (46 + sid_len) cs_len []) as H.
    by rewrite Hcodes in H.
  - apply read_codes_Ok_length in Hcodes. by rewrite range2_length in Hcodes.
  - destruct (unpack_H_pair (slice data 9 11)) as (hi & lo & Hs & E).
    { by eapply unpack_H_Ok_length. }
    rewrite E in Hv. apply Ok_inj in Hv. by rewrite Hs, <- Hv.
Qed.

Lemma parsed_cipher_suites_witness :
  ∃ sid_len cs_len,
    index odd_record 43 = Ok sid_len
    ∧ unpack_H (slice odd_record (44 + sid_len) (44 + sid_len + 2)) = Ok cs_len
    ∧ cipher_suites odd_hello
      = take (N.to_nat ((cs_len + 1) / 2))
          (be16_pairs (drop (N.to_nat (46 + sid_len)) odd_record))
    ∧ length (cipher_suites odd_hello) = N.to_nat ((cs_len + 1) / 2)
    ∧ be16_pairs (slice odd_record 9 11) = [version odd_hello].
Proof. apply (parsed_cipher_suites odd_record odd_hello). vm_compute. reflexivity. Defined.

(** *** Invariants of the extension loop *)

(** What every turn of the loop keeps, the loop keeps. *)
Lemma ext_loop_invariant (I : ext_vars → Prop) data :
  (∀ offset vs ext_len vs',
     I vs → ext_iter data offset vs = Ok (ext_len, vs') → I vs') →
  ∀ ext_end offset vs vs',
    I vs → ext_loop data ext_end offset vs = Ok vs' → I vs'.
Proof.
  intros Hstep ext_end offset.
  remember (N.to_nat (ext_end - offset)) as n eqn:Hn.
  revert offset Hn. induction n as [n IH] using lt_wf_ind.
  intros offset Hn vs vs' HI. rewrite ext_loop_step.
  destruct (decide (offset < ext_end)); [| by intros [= <-]].
  destruct (ext_iter data offset vs) as [[ext_len vs1] |] eqn:E; [| done].
  eapply IH; [| reflexivity | by eapply Hstep]. lia.
Qed.

Lemma unpack_H_u16 s x : unpack_H s = Ok x → is_u16 x.
Proof.
  destruct s as [| hi [| lo [| ? ?]]]; try done. simpl. intros [= <-].
  pose proof (Byte.to_N_bounded hi). pose proof (Byte.to_N_bounded lo).
  unfold is_u16. lia.
Qed.

Lemma read_codes_u16 data base idxs acc :
  Forall is_u16 acc → Forall is_u16 (read_codes data base idxs acc).1.
Proof.
  revert acc. induction idxs as [| i idxs IH]; intros acc Hacc; [done |].
  cbn [read_codes]. destruct (unpack_H _) eqn:E; [| done].
  apply IH, Forall_app. split; [done |].
  repeat constructor. by eapply unpack_H_u16.
Qed.

Lemma parse_supported_versions_u16 ext_data acc :
  Forall is_u16 acc → Forall is_u16 (parse_supported_versions ext_data acc).
Proof.
  intros Hacc. unfold parse_supported_versions.
  destruct (index ext_data 0); [by apply read_codes_u16 | done].
Qed.

Lemma parse_signature_algorithms_u16 ext_data acc :
  Forall is_u16 acc → Forall is_u16 (parse_signature_algorithms ext_data acc).
Proof.
  intros Hacc. unfold parse_signature_algorithms.
  destruct (unpack_H _); [by apply read_codes_u16 | done].
Qed.

(** The result of one turn, branch by branch. *)
Lemma ext_iter_Ok data offset vs ext_len vs' :
  ext_iter data offset vs = Ok (ext_len, vs') →
  ∃ ext_type,
    unpack_H (slice data offset (offset + 2)) = Ok ext_type
    ∧ unpack_H (slice data (offset + 2) (offset + 4)) = Ok ext_len
    ∧ v_extensions vs' = v_extensions vs ++ [ext_type]
    ∧ (let ext_data := slice data (offset + 4) (offset + 4 + ext_len) in
       (ext_type = EXT_SNI ∧ v_sni vs' = parse_sni ext_data (v_sni vs)
        ∨ v_sni vs' = v_sni vs)
       ∧ (ext_type = EXT_ALPN
          ∧ v_alpn_protocols vs' = parse_alpn ext_data (v_alpn_protocols vs)
          ∨ v_alpn_protocols vs' = v_alpn_protocols vs)
       ∧ (ext_type = EXT_SUPPORTED_VERSIONS
          ∧ v_supported_versions vs'
            = parse_supported_versions ext_data (v_supported_versions vs)
          ∨ v_supported_versions vs' = v_supported_versions vs)
       ∧ (ext_type = EXT_SIGNATURE_ALGORITHMS
          ∧ v_signature_algorithms vs'
            = parse_signature_algorithms ext_data (v_signature_algorithms vs)
          ∨ v_signature_algorithms vs' = v_signature_algorithms vs)).
Proof.
  unfold ext_iter. intros H. do 2 ok_case H.
  apply Ok_inj in H. injection H as <- <-.
  eexists. split; [done |]. split; [done |].
  repeat match goal with
  | |- context [(?t =? ?k) && ?c] =>
      let Et := fresh "Et" in
      destruct (t =? k) eqn:Et; [apply N.eqb_eq in Et | ];
      cbn [andb]; [destruct c |]
  end; cbn; repeat split; auto.
Qed.

Lemma ext_iter_u16 data offset vs ext_len vs' :
  codes_u16 vs → ext_iter data offset vs = Ok (ext_len, vs') → codes_u16 vs'.
Proof.
  intros (He & Hv & Hs) H.
  destruct (ext_iter_Ok _ _ _ _ _ H) as (ext_type & Ht & _ & Hext & Hb).
  cbv zeta in Hb. destruct Hb as (_ & _ & Hsv & Hsig).
  unfold codes_u16. rewrite Hext. split; [| split].
  - apply Forall_app. split; [done |]. repeat constructor. by eapply unpack_H_u16.
  - destruct Hsv as [[_ ->] | ->]; [by apply parse_supported_versions_u16 | done].
  - destruct Hsig as [[_ ->] | ->]; [by apply parse_signature_algorithms_u16 | done].
Qed.

Lemma ext_iter_decoded_from_listed data offset vs ext_len vs' :
  decoded_from_listed vs → ext_iter data offset vs = Ok (ext_len, vs') →
  decoded_from_listed vs'.
Proof.
  intros (H1 & H2 & H3 & H4) H.
  destruct (ext_iter_Ok _ _ _ _ _ H) as (ext_type & _ & _ & Hext & Hb).
  cbv zeta in Hb. destruct Hb as (Hsni & Halpn & Hsv & Hsig).
  unfold decoded_from_listed. rewrite Hext.
  repeat split; intros Hne; apply elem_of_app.
  - destruct Hsni as [[-> _] | E]; [right; left | left; apply H1; congruence].
  - destruct Halpn as [[-> _] | E]; [right; left | left; apply H2; congruence].
  - destruct Hsv as [[-> _] | E]; [right; left | left; apply H3; congruence].
  - destruct Hsig as [[-> _] | E]; [right; left | left; apply H4; congruence].
Qed.

Lemma parse_vars data ch :
  parse_client_hello_raw data = Some ch →
  ∃ vs, codes_u16 vs ∧ decoded_from_listed vs
        ∧ extensions ch = v_extensions vs ∧ sni ch = v_sni vs
        ∧ alpn_protocols ch = v_alpn_protocols vs
        ∧ supported_versions ch = v_supported_versions vs
        ∧ signature_algorithms ch = v_signature_algorithms vs.
Proof.
  intros Hp.
  destruct (parse_Some data ch Hp)
    as (sid_len & cs_len & comp_len & vs & _ & _ & _ & _ & _ & _ & _ & Hext & Hfields).
  exists vs.
  assert (codes_u16 no_extensions) as I1 by (by repeat split).
  assert (decoded_from_listed no_extensions) as I2 by (by repeat split).
  destruct (_ <? _).
  - destruct Hext as (extensions_len & _ & Hloop). split; [| split; [| done]].
    + eapply (ext_loop_invariant codes_u16); [| exact I1 | exact Hloop].
      intros. by eapply ext_iter_u16.
    + eapply (ext_loop_invariant decoded_from_listed); [| exact I2 | exact Hloop].
      intros. by eapply ext_iter_decoded_from_listed.
  - by subst vs.
Qed.

(** X11. Every code of a ClientHello that the parser returns is a 16-bit
    value: the version, the cipher suites, the extension types, the
    supported versions and the signature algorithms. *)
Theorem parsed_codes_16bit data ch :
  parse_client_hello_raw data = Some ch →
  version ch < 65536
  ∧ Forall (λ x, x < 65536) (cipher_suites ch)
  ∧ Forall (λ x, x < 65536) (extensions ch)
  ∧ Forall (λ x, x < 65536) (supported_versions ch)
  ∧ Forall (λ x, x < 65536) (signature_algorithms ch).
Proof.
  intros Hp.
  destruct (parse_Some data ch Hp)
    as (sid_len & cs_len & comp_len & vs0 & _ & _ & Hv & _ & _ & Hcodes & _).
  destruct (parse_vars data ch Hp)
    as (vs & (He & Hsv & Hsig) & _ & -> & _ & _ & -> & ->).
  split; [by eapply unpack_H_u16 |]. split; [| done].
  pose proof (read_codes_u16 data (46 + sid_len) (range2 cs_len) []) as H.
  rewrite Hcodes in H. by apply H.
Qed.

Lemma parsed_codes_16bit_witness :
  version odd_hello < 65536
  ∧ Forall (λ x, x < 65536) (cipher_suites odd_hello)
  ∧ Forall (λ x, x < 65536) (extensions odd_hello)
  ∧ Forall (λ x, x < 65536) (supported_versions odd_hello)
  ∧ Forall (λ x, x < 65536) (signature_algorithms odd_hello).
Proof. apply (parsed_codes_16bit odd_record odd_hello). vm_compute. reflexivity. Defined.

Lemma parsed_fields_listed_aux data ch :
  parse_client_hello_raw data = Some ch →
  (sni ch ≠ None → EXT_SNI ∈ extensions ch)
  ∧ (alpn_protocols ch ≠ [] → EXT_ALPN ∈ extensions ch)
  ∧ (supported_versions ch ≠ [] → EXT_SUPPORTED_VERSIONS ∈ extensions ch)
  ∧ (signature_algorithms ch ≠ [] → EXT_SIGNATURE_ALGORITHMS ∈ extensions ch).
Proof.
  intros Hp.
  destruct (parse_vars data ch Hp) as (vs & _ & H & -> & -> & -> & -> & ->).
  exact H.
Qed.

(** X12. What the parser has decoded always comes with its extension type:
    in a ClientHello that it returns, an SNI is present only if the
    extension list holds 0x0000, ALPN protocols only if it holds 0x0010,
    supported versions only if it holds 0x002b, and signature algorithms
    only if it holds 0x000d. *)
Theorem parsed_fields_are_listed data ch :
  parse_client_hello_raw data = Some ch →
  (sni ch ≠ None → EXT_SNI ∈ extensions ch)
  ∧ (alpn_protocols ch ≠ [] → EXT_ALPN ∈ extensions ch)
  ∧ (supported_versions ch ≠ [] → EXT_SUPPORTED_VERSIONS ∈ extensions ch)
  ∧ (signature_algorithms ch ≠ [] → EXT_SIGNATURE_ALGORITHMS ∈ extensions ch).
Proof.
  apply parsed_fields_listed_aux.
Qed.

Lemma parsed_fields_are_listed_witness :
  (sni odd_hello ≠ None → EXT_SNI ∈ extensions odd_hello)
  ∧ (alpn_protocols odd_hello ≠ [] → EXT_ALPN ∈ extensions odd_hello)
  ∧ (supported_versions odd_hello ≠ [] → EXT_SUPPORTED_VERSIONS ∈ extensions odd_hello)
  ∧ (signature_algorithms odd_hello ≠ [] →
     EXT_SIGNATURE_ALGORITHMS ∈ extensions odd_hello).
Proof. apply (parsed_fields_are_listed odd_record odd_hello). vm_compute. reflexivity. Defined.

(** *** From the bytes to the fingerprint *)

(** X13. Parsing and fingerprinting compose without a condition: for
    every record the parser accepts, the fingerprint exists and its two
    hashes are those of comma-joined codes of exactly four hex digits, the
    cipher suites sorted, the extensions without SNI and ALPN sorted, the
    signature algorithms in wire order, GREASE values left out. *)
Theorem fingerprint_of_record u data ch :
  parse_client_hello_raw data = Some ch →
  ∃ fp,
    calculate_ja4 u ch = Ok fp
    ∧ b fp = sha256_12
               (join (py ",")
                  (hex4 <$> sorted (filter (λ x, ¬ is_grease x) (cipher_suites ch))))
    ∧ c fp = sha256_12
               (join (py ",")
                  (hex4 <$> sorted (filter (λ e, e ≠ 0x0000 ∧ e ≠ 0x0010)
                                      (filter (λ e, ¬ is_grease e) (extensions ch))))
                ++ match signature_algorithms ch with
                   | [] => []
                   | _ :: _ =>
                       py "_" ++ join (py ",") (hex4 <$> signature_algorithms ch)
                   end).
Proof.
  intros Hp.
  destruct (parse_Some data ch Hp)
    as (sid_len & cs_len & comp_len & vs0 & _ & _ & _ & _ & _ & Hcodes & _).
  destruct (parse_vars data ch Hp) as (vs & (He & _ & Hsig) & _ & Eext & _ & _ & _ & Esig).
  rewrite <- Eext in He. rewrite <- Esig in Hsig.
  assert (Forall is_u16 (cipher_suites ch)) as Hcs.
  { pose proof (read_codes_u16 data (46 + sid_len) (range2 cs_len) []) as H.
    rewrite Hcodes in H. by apply H. }
  eexists. split; [apply calculate_ja4_unfold |]. cbn [b c]. split.
  - unfold cipher_string, real_codes. rewrite format_04x_hex4_list; [done |].
    rewrite sorted_Permutation. by apply Forall_filtered.
  - f_equal. unfold combined, ext_string, real_codes.
    assert (filter (λ e, e ∉ [EXT_SNI; EXT_ALPN])
              (filter (λ e, ¬ is_grease e) (extensions ch))
            = filter (λ e, e ≠ 0x0000 ∧ e ≠ 0x0010)
                (filter (λ e, ¬ is_grease e) (extensions ch))) as ->.
    { apply list_filter_iff. intros e. unfold EXT_SNI, EXT_ALPN.
      rewrite !not_elem_of_cons. pose proof (not_elem_of_nil e). tauto. }
    rewrite format_04x_hex4_list.
    2: { rewrite sorted_Permutation. by do 2 apply Forall_filtered. }
    destruct (signature_algorithms ch) as [| s0 sigs] eqn:E.
    + by rewrite app_nil_r.
    + by rewrite format_04x_hex4_list.
Qed.

Lemma fingerprint_of_record_witness :
  ∃ fp,
    calculate_ja4 ascii_only odd_hello = Ok fp
    ∧ b fp = sha256_12
               (join (py ",")
                  (hex4 <$> sorted (filter (λ x, ¬ is_grease x) (cipher_suites odd_hello))))
    ∧ c fp = sha256_12
               (join (py ",")
                  (hex4 <$> sorted (filter (λ e, e ≠ 0x0000 ∧ e ≠ 0x0010)
                                      (filter (λ e, ¬ is_grease e) (extensions odd_hello))))
                ++ match signature_algorithms odd_hello with
                   | [] => []
                   | _ :: _ =>
                       py "_" ++ join (py ",") (hex4 <$> signature_algorithms odd_hello)
                   end).
Proof.
  apply (fingerprint_of_record ascii_only odd_record odd_hello).
  vm_compute. reflexivity.
Defined.

(** X14. A record whose cipher suites and extensions are all GREASE values
    has the fingerprint of an empty ClientHello: no SNI marker, both counts
    00, ALPN code 00, and both hashes that of the empty string. (For a
    ClientHello built by hand this can fail, since signature algorithms
    may come without their extension; from the parser they cannot.) *)
Theorem grease_only_record u data ch :
  parse_client_hello_raw data = Some ch →
  Forall (λ x, is_grease x = true) (cipher_suites ch) →
  Forall (λ x, is_grease x = true) (extensions ch) →
  ∃ fp v0 v1,
    calculate_ja4 u ch = Ok fp
    ∧ a fp = [116; v0; v1] ++ py "i000000"
    ∧ b fp = py "e3b0c44298fc"
    ∧ c fp = py "e3b0c44298fc".
Proof.
  intros Hp Hcs Hes.
  destruct (parsed_fields_listed_aux data ch Hp) as (Hsni & Halpn & _ & Hsig).
  assert (∀ x, is_grease x = false → x ∉ extensions ch) as Hnot.
  { intros x Hx Hin. rewrite Forall_forall in Hes.
    rewrite (Hes x Hin) in Hx. done. }
  assert (sni ch = None) as Esni.
  { destruct (sni ch); [| done]. exfalso. by apply (Hnot EXT_SNI); [| apply Hsni]. }
  assert (alpn_protocols ch = []) as Ealpn.
  { destruct (alpn_protocols ch); [done |]. exfalso.
    by apply (Hnot EXT_ALPN); [| apply Halpn]. }
  assert (signature_algorithms ch = []) as Esig.
  { destruct (signature_algorithms ch); [done |]. exfalso.
    by apply (Hnot EXT_SIGNATURE_ALGORITHMS); [| apply Hsig]. }
  destruct (section_a_chars u ch)
    as (v0 & v1 & c1 & c2 & e1 & e2 & a1 & a2 & _ & Hcc & Hec & Hal & Ha).
  unfold cipher_count in Hcc. unfold ext_count in Hec.
  rewrite real_codes_grease in Hcc, Hec by done.
  injection Hcc as <- <-. injection Hec as <- <-.
  rewrite Ealpn in Hal. injection Hal as <- <-. rewrite Esni in Ha.
  eexists _, v0, v1. split; [apply calculate_ja4_unfold |]. cbn [a b c].
  split; [exact Ha |].
  assert (cipher_string ch = []) as ->.
  { unfold cipher_string. by rewrite real_codes_grease. }
  assert (combined ch = []) as ->.
  { unfold combined, ext_string. by rewrite Esig, real_codes_grease. }
  split; vm_compute; reflexivity.
Qed.

Lemma grease_only_record_witness :
  ∃ fp v0 v1,
    calculate_ja4 ascii_only (with_lists (bare_hello 0x0303) [0x0a0a] [0x1a1a]) = Ok fp
    ∧ a fp = [116; v0; v1] ++ py "i000000"
    ∧ b fp = py "e3b0c44298fc"
    ∧ c fp = py "e3b0c44298fc".
Proof.
  apply (grease_only_record ascii_only grease_record);
    [vm_compute; reflexivity | repeat constructor ..].
Defined.


(** ** Reading back what was written *)

(** *** Bytes and pairs of bytes *)

Lemma to_N_byte_of_N n : n < 256 → Byte.to_N (byte_of_N n) = n.
Proof.
  intros Hn. unfold byte_of_N.
  destruct (Byte.of_N n) as [x |] eqn:E.
  - by apply Byte.to_of_N in E.
  - apply Byte.of_N_None_iff in E. lia.
Qed.

Lemma unpack_H_u16_be n : n < 65536 → unpack_H (u16_be n) = Ok n.
Proof.
  intros Hn. unfold u16_be, unpack_H.
  rewrite !to_N_byte_of_N by divmod. f_equal. divmod.
Qed.

Lemma u16_be_length n : length (u16_be n) = 2%nat.
Proof. done. Qed.

Lemma be16_pairs_u16_be l rest :
  Forall (λ x, x < 65536) l →
  be16_pairs (concat (u16_be <$> l) ++ rest) = l ++ be16_pairs rest.
Proof.
  induction 1 as [| x l Hx _ IH]; [done |].
  cbn [fmap list_fmap concat]. unfold u16_be at 1. cbn [app be16_pairs].
  rewrite !to_N_byte_of_N by divmod. rewrite IH. f_equal. divmod.
Qed.

Lemma concat_u16_be_length l : length (concat (u16_be <$> l)) = (2 * length l)%nat.
Proof. induction l as [| x l IH]; [done |]. cbn. rewrite IH. lia. Qed.

(** *** A position in the buffer and what lies from there on *)

Lemma index_at data off x rest :
  drop (N.to_nat off) data = x :: rest → index data off = Ok (Byte.to_N x).
Proof.
  intros H. unfold index.
  replace (N.to_nat off) with (N.to_nat off + 0)%nat by lia.
  by rewrite <- lookup_drop, H.
Qed.

Lemma slice_at {A} (data : list A) off hi piece rest :
  drop (N.to_nat off) data = piece ++ rest → hi = off + len piece →
  slice data off hi = piece.
Proof.
  intros H ->. unfold slice, len. rewrite H.
  replace (N.to_nat (off + N.of_nat (length piece) - off)) with (length piece) by lia.
  apply take_app_length.
Qed.

Lemma drop_at {A} (data : list A) off off' piece rest :
  drop (N.to_nat off) data = piece ++ rest → off' = off + len piece →
  drop (N.to_nat off') data = rest.
Proof.
  intros H ->. unfold len.
  replace (N.to_nat (off + N.of_nat (length piece)))
    with (N.to_nat off + length piece)%nat by lia.
  by rewrite <- drop_drop, H, drop_app_length.
Qed.

(** *** The SNI extension *)

(** X15. The SNI branch reads back the host name: for extension data made
    of any three bytes (list length and name type, which it does not look
    at), the length of the name on two bytes and the name, followed by
    anything, [sni] becomes the decoded name, whatever it was before. *)
Theorem parse_sni_reads_name hi lo name_type name junk host previous :
  len name < 65536 →
  decode name = Ok host →
  parse_sni (sni_data hi lo name_type name ++ junk) previous = Some host.
Proof.
  intros Hlen Hdec. unfold parse_sni, sni_data.
  set (ext_data := ([hi; lo; name_type] ++ u16_be (len name) ++ name) ++ junk).
  assert (slice ext_data 0 2 = [hi; lo]) as -> by done.
  assert (index ext_data 2 = Ok (Byte.to_N name_type)) as -> by done.
  assert (slice ext_data 3 5 = u16_be (len name)) as -> by done.
  cbn [unpack_H mbind result_bind]. fold (u16_be (len name)).
  rewrite unpack_H_u16_be by done. cbn [mbind result_bind].
  rewrite (slice_at ext_data 5 (5 + len name) name junk); [by rewrite Hdec | | done].
  unfold ext_data. by rewrite <- !(assoc_L (++)).
Qed.

Lemma parse_sni_reads_name_witness :
  parse_sni (sni_data "000" "014" "000" (buffer [101; 120; 46; 99; 111; 109]) ++ []) None
  = Some (py "ex.com").
Proof.
  apply (parse_sni_reads_name "000" "014" "000" (buffer [101; 120; 46; 99; 111; 109]) []);
    vm_compute; reflexivity.
Defined.

(** *** The ALPN extension *)

Lemma alpn_loop_entries ext_data alpn_list_len junk protos names :
  Forall2 (λ proto name, decode proto = Ok name ∧ len proto < 256) protos names →
  ∀ alpn_offset acc,
    drop (N.to_nat alpn_offset) ext_data = concat (alpn_entry <$> protos) ++ junk →
    2 + alpn_list_len = alpn_offset + len (concat (alpn_entry <$> protos)) →
    alpn_loop ext_data alpn_list_len alpn_offset acc = acc ++ names.
Proof.
  induction 1 as [| proto name protos names [Hdec Hlen] _ IH];
    intros alpn_offset acc Hdrop Hend; rewrite alpn_loop_step.
  - change (len (concat (alpn_entry <$> []))) with 0 in Hend.
    destruct (decide _); [lia |]. by rewrite app_nil_r.
  - rewrite fmap_cons in Hdrop, Hend. cbn [concat] in Hdrop, Hend.
    unfold len in Hend. rewrite length_app in Hend.
    unfold alpn_entry at 1 in Hdrop. unfold alpn_entry at 1 in Hend.
    cbn [length app] in Hdrop, Hend.
    destruct (decide _); [| lia].
    rewrite (index_at _ _ _ _ Hdrop), to_N_byte_of_N by done.
    assert (drop (N.to_nat (alpn_offset + 1)) ext_data
            = proto ++ concat (alpn_entry <$> protos) ++ junk) as Hdrop1.
    { apply (drop_at ext_data alpn_offset _ [byte_of_N (len proto)]); [| done].
      by rewrite <- (assoc_L (++)) in Hdrop. }
    rewrite (slice_at _ _ _ _ _ Hdrop1) by done. rewrite Hdec.
    rewrite (IH (alpn_offset + (1 + len proto)) (acc ++ [name])).
    + by rewrite <- (assoc_L (++)).
    + apply (drop_at ext_data (alpn_offset + 1) _ proto); [done | lia].
    + unfold len in *. lia.
Qed.

(** X16. The ALPN branch reads back the protocol names: for extension data
    made of the length of the list on two bytes and, for each protocol, its
    length on one byte and its bytes, followed by anything, the decoded
    names are appended, in order, to the protocols already there. *)
Theorem parse_alpn_reads_protocols protos names junk previous :
  Forall2 (λ proto name, decode proto = Ok name ∧ len proto < 256) protos names →
  len (concat (alpn_entry <$> protos)) < 65536 →
  parse_alpn (alpn_data protos ++ junk) previous = previous ++ names.
Proof.
  intros Hprotos Hlen. unfold parse_alpn, alpn_data.
  set (entries := concat (alpn_entry <$> protos)) in *.
  assert (slice ((u16_be (len entries) ++ entries) ++ junk) 0 2 = u16_be (len entries))
    as -> by done.
  rewrite unpack_H_u16_be by done.
  apply (alpn_loop_entries _ _ junk protos names Hprotos); [| done].
  by rewrite <- (assoc_L (++)).
Qed.

Lemma parse_alpn_reads_protocols_witness :
  parse_alpn (alpn_data [buffer [104; 50]; buffer [104; 116; 116; 112; 47; 49; 46; 49]]
              ++ buffer [0xff]) []
  = [] ++ [py "h2"; py "http/1.1"].
Proof.
  apply (parse_alpn_reads_protocols
           [buffer [104; 50]; buffer [104; 116; 116; 112; 47; 49; 46; 49]]
           [py "h2"; py "http/1.1"]).
  - repeat constructor.
  - vm_compute. reflexivity.
Defined.

Lemma alpn_loop_prefix ext_data alpn_list_len rest protos names :
  Forall2 (λ proto name, decode proto = Ok name ∧ len proto < 256) protos names →
  ∀ alpn_offset acc,
    drop (N.to_nat alpn_offset) ext_data = concat (alpn_entry <$> protos) ++ rest →
    alpn_offset + len (concat (alpn_entry <$> protos)) ≤ 2 + alpn_list_len →
    alpn_loop ext_data alpn_list_len alpn_offset acc
    = alpn_loop ext_data alpn_list_len
        (alpn_offset + len (concat (alpn_entry <$> protos))) (acc ++ names).
Proof.
  induction 1 as [| proto name protos names [Hdec Hlen] _ IH];
    intros alpn_offset acc Hdrop Hend.
  { change (len (concat (alpn_entry <$> []))) with 0.
    by rewrite N.add_0_r, app_nil_r. }
  rewrite fmap_cons in Hdrop, Hend |- *. cbn [concat] in Hdrop, Hend |- *.
  assert (len (alpn_entry proto ++ concat (alpn_entry <$> protos))
          = 1 + len proto + len (concat (alpn_entry <$> protos))) as Hl.
  { unfold len, alpn_entry. rewrite length_app. cbn [length]. lia. }
  rewrite Hl in Hend |- *. unfold alpn_entry at 1 in Hdrop. cbn [app] in Hdrop.
  rewrite alpn_loop_step. destruct (decide _); [| lia].
  rewrite (index_at _ _ _ _ Hdrop), to_N_byte_of_N by done.
  assert (drop (N.to_nat (alpn_offset + 1)) ext_data
          = proto ++ concat (alpn_entry <$> protos) ++ rest) as Hdrop1.
  { apply (drop_at ext_data alpn_offset _ [byte_of_N (len proto)]); [| done].
    by rewrite <- (assoc_L (++)) in Hdrop. }
  rewrite (slice_at _ _ _ _ _ Hdrop1) by done. rewrite Hdec.
  rewrite (IH (alpn_offset + (1 + len proto)) (acc ++ [name])).
  - rewrite <- (assoc_L (++)). f_equal. lia.
  - apply (drop_at ext_data (alpn_offset + 1) _ proto); [done | lia].
  - lia.
Qed.

(** X17. A protocol name that is not UTF-8 ends the ALPN loop: the names
    before it are kept, the names after it are never read. *)
Theorem alpn_stops_at_bad_name good names bad more junk previous :
  Forall2 (λ proto name, decode proto = Ok name ∧ len proto < 256) good names →
  len bad < 256 → (∃ e, decode bad = Raise e) →
  len (concat (alpn_entry <$> good ++ bad :: more)) < 65536 →
  parse_alpn (alpn_data (good ++ bad :: more) ++ junk) previous = previous ++ names.
Proof.
  intros Hgood Hbad [e He] Hlen. unfold parse_alpn, alpn_data.
  set (entries := concat (alpn_entry <$> good ++ bad :: more)) in *.
  assert (slice ((u16_be (len entries) ++ entries) ++ junk) 0 2 = u16_be (len entries))
    as -> by done.
  rewrite unpack_H_u16_be by done.
  assert (entries = concat (alpn_entry <$> good)
                    ++ alpn_entry bad ++ concat (alpn_entry <$> more)) as Hentries.
  { unfold entries. by rewrite fmap_app, concat_app, fmap_cons. }
  assert (len entries = len (concat (alpn_entry <$> good)) + 1 + len bad
                        + len (concat (alpn_entry <$> more))) as Hl.
  { rewrite Hentries. unfold len, alpn_entry. rewrite !length_app. cbn [length]. lia. }
  set (ext_data := (u16_be (len entries) ++ entries) ++ junk).
  assert (drop (N.to_nat 2) ext_data
          = concat (alpn_entry <$> good)
            ++ byte_of_N (len bad) :: bad ++ concat (alpn_entry <$> more) ++ junk)
    as Hdrop.
  { unfold ext_data. rewrite Hentries. unfold alpn_entry at 2.
    by rewrite <- !(assoc_L (++)). }
  rewrite (alpn_loop_prefix ext_data _ _ good names Hgood 2 previous Hdrop) by lia.
  pose proof (drop_at ext_data 2 _ _ _ Hdrop eq_refl) as Hdrop1.
  rewrite alpn_loop_step. destruct (decide _); [| lia].
  rewrite (index_at _ _ _ _ Hdrop1), to_N_byte_of_N by done.
  assert (drop (N.to_nat (2 + len (concat (alpn_entry <$> good)) + 1)) ext_data
          = bad ++ concat (alpn_entry <$> more) ++ junk) as Hdrop2.
  { by apply (drop_at ext_data _ _ [byte_of_N (len bad)] _ Hdrop1). }
  rewrite (slice_at _ _ _ _ _ Hdrop2) by done. by rewrite He.
Qed.

Lemma alpn_stops_at_bad_name_witness :
  parse_alpn (alpn_data ([buffer [104; 50]] ++ buffer [0xff] :: [buffer [104; 51]])
              ++ buffer []) []
  = [] ++ [py "h2"].
Proof.
  apply (alpn_stops_at_bad_name [buffer [104; 50]] [py "h2"] (buffer [0xff])
           [buffer [104; 51]] (buffer []) []).
  - repeat constructor.
  - reflexivity.
  - by eexists.
  - reflexivity.
Defined.

(** *** Lists of 16-bit codes *)

Lemma read_codes_seq_listed data base l :
  Forall (λ x, x < 65536) l →
  ∀ i acc rest,
    drop (N.to_nat base + 2 * i) data = concat (u16_be <$> l) ++ rest →
    read_codes data base ((λ k, 2 * N.of_nat k) <$> seq i (length l)) acc
    = (acc ++ l, Ok ()).
Proof.
  induction 1 as [| x l Hx _ IH]; intros i acc rest Hdrop.
  { by rewrite app_nil_r. }
  cbn [length seq]. rewrite fmap_cons. cbn [read_codes].
  rewrite fmap_cons in Hdrop. cbn [concat] in Hdrop.
  rewrite <- (assoc_L (++)) in Hdrop.
  rewrite (slice_at data (base + 2 * N.of_nat i) _ (u16_be x)
             (concat (u16_be <$> l) ++ rest)).
  - rewrite unpack_H_u16_be by done.
    rewrite (IH (S i) (acc ++ [x]) rest); [by rewrite <- (assoc_L (++)) |].
    replace (N.to_nat base + 2 * S i)%nat with (N.to_nat base + 2 * i + 2)%nat by lia.
    by rewrite <- drop_drop, Hdrop.
  - by replace (N.to_nat (base + 2 * N.of_nat i)) with (N.to_nat base + 2 * i)%nat by lia.
  - done.
Qed.

Lemma read_codes_listed data base l acc rest :
  Forall (λ x, x < 65536) l →
  drop (N.to_nat base) data = concat (u16_be <$> l) ++ rest →
  read_codes data base (range2 (2 * len l)) acc = (acc ++ l, Ok ()).
Proof.
  intros Hl Hdrop. unfold range2, len.
  replace (N.to_nat ((2 * N.of_nat (length l) + 1) / 2)) with (length l) by divmod.
  apply (read_codes_seq_listed data base l Hl 0%nat acc rest).
  by replace (N.to_nat base + 2 * 0)%nat with (N.to_nat base) by lia.
Qed.

(** X18. The supported_versions and signature_algorithms branches read back
    the codes: for extension data made of the length in bytes (on one byte,
    on two bytes) and the 16-bit codes, followed by anything, the codes are
    appended, in wire order, to those already there. *)
Theorem code_lists_read_back codes junk previous :
  Forall (λ x, x < 65536) codes →
  (2 * len codes < 256 →
   parse_supported_versions (versions_data codes ++ junk) previous = previous ++ codes)
  ∧ (2 * len codes < 65536 →
     parse_signature_algorithms (sigalgs_data codes ++ junk) previous
     = previous ++ codes).
Proof.
  intros Hcodes. split; intros Hlen.
  - unfold parse_supported_versions, versions_data.
    rewrite (index_at _ 0 (byte_of_N (2 * len codes)) (concat (u16_be <$> codes) ++ junk))
      by done.
    rewrite to_N_byte_of_N by done.
    by rewrite (read_codes_listed _ 1 codes previous junk).
  - unfold parse_signature_algorithms, sigalgs_data.
    assert (slice ((u16_be (2 * len codes) ++ concat (u16_be <$> codes)) ++ junk) 0 2
            = u16_be (2 * len codes)) as -> by done.
    rewrite unpack_H_u16_be by done.
    rewrite (read_codes_listed _ 2 codes previous junk); [done | done |].
    by rewrite <- (assoc_L (++)).
Qed.

Lemma code_lists_read_back_witness :
  parse_supported_versions (versions_data [0x0304; 0x0303] ++ buffer [0xff]) [0x0a0a]
  = [0x0a0a] ++ [0x0304; 0x0303].
Proof.
  apply (proj1 (code_lists_read_back [0x0304; 0x0303] (buffer [0xff]) [0x0a0a]
                  ltac:(repeat constructor))).
  vm_compute. reflexivity.
Defined.

(** *** The extension loop *)

Lemma ext_iter_framed data offset vs e rest :
  fits_header e →
  drop (N.to_nat offset) data = extension_bytes e ++ rest →
  ext_iter data offset vs = Ok (len e.2, ext_effect vs e).
Proof.
  intros [Htype Hlen] Hdrop. destruct e as [ext_type ext_data]. cbn [fst snd] in *.
  unfold extension_bytes in Hdrop. cbn [fst snd] in Hdrop.
  rewrite <- !(assoc_L (++)) in Hdrop.
  pose proof (drop_at data offset (offset + 2) _ _ Hdrop eq_refl) as Hdrop2.
  pose proof (drop_at data (offset + 2) (offset + 4) _ _ Hdrop2 ltac:(unfold len; simpl; lia))
    as Hdrop4.
  unfold ext_iter.
  rewrite (slice_at data offset _ _ _ Hdrop) by done.
  rewrite unpack_H_u16_be by done. cbn [mbind result_bind].
  rewrite (slice_at data (offset + 2) _ _ _ Hdrop2) by (unfold len; simpl; lia).
  rewrite unpack_H_u16_be by done. cbn [mbind result_bind].
  rewrite (slice_at data (offset + 4) _ _ _ Hdrop4) by done.
  reflexivity.
Qed.

Lemma ext_loop_framed data rest exts :
  Forall fits_header exts →
  ∀ offset ext_end vs,
    drop (N.to_nat offset) data = concat (extension_bytes <$> exts) ++ rest →
    ext_end = offset + len (concat (extension_bytes <$> exts)) →
    ext_loop data ext_end offset vs = Ok (foldl ext_effect vs exts).
Proof.
  induction 1 as [| e exts He _ IH]; intros offset ext_end vs Hdrop ->;
    rewrite ext_loop_step.
  { change (len (concat (extension_bytes <$> []))) with 0.
    by destruct (decide _); [lia |]. }
  rewrite fmap_cons in Hdrop |- *. cbn [concat] in Hdrop |- *.
  rewrite <- (assoc_L (++)) in Hdrop.
  assert (len (extension_bytes e ++ concat (extension_bytes <$> exts))
          = 4 + len e.2 + len (concat (extension_bytes <$> exts))) as Hl.
  { unfold len, extension_bytes. rewrite !length_app, !u16_be_length. lia. }
  rewrite Hl. destruct (decide _); [| lia].
  rewrite (ext_iter_framed data offset vs e _ He Hdrop).
  cbn [foldl]. apply IH; [| lia].
  apply (drop_at data offset _ (extension_bytes e)); [done |].
  unfold len, extension_bytes. rewrite !length_app, !u16_be_length. lia.
Qed.

(** *** The whole record *)

Lemma unpack_H_two s : length s = 2%nat → ∃ x, unpack_H s = Ok x.
Proof. intros H. destruct (unpack_H_pair s H) as (? & ? & _ & ->). by eexists. Qed.

Lemma unpack_I_four b s : length s = 3%nat → ∃ x, unpack_I (b :: s) = Ok x.
Proof. destruct s as [| ? [| ? [| ? [| ? ?]]]]; try done. by eexists. Qed.

(** The body of the parser on a well-formed record: it returns, and does
    not raise. *)
Lemma parse_body_framed record_version record_length handshake_length
    client_version random session_id suites compression exts :
  length record_version = 2%nat → length record_length = 2%nat →
  length handshake_length = 3%nat →
  client_version < 65536 → length random = 32%nat →
  len session_id < 256 →
  Forall (λ x, x < 65536) suites → 2 * len suites < 65536 →
  len compression < 256 →
  Forall fits_header (default [] exts) →
  len (concat (extension_bytes <$> default [] exts)) < 65536 →
  parse_body
    (client_hello_record record_version record_length handshake_length
       client_version random session_id suites compression exts)
  = Ok (Some (hello_of client_version suites
                (foldl ext_effect no_extensions (default [] exts)))).
Proof.
  intros Hrv Hrl Hhl Hv Hrandom Hsid Hsuites Hsuites_len Hcomp Hexts Hexts_len.
  set (data := client_hello_record _ _ _ _ _ _ _ _ _).
  assert (drop (N.to_nat 0) data
          = client_hello_record record_version record_length handshake_length
              client_version random session_id suites compression exts) as D0 by done.
  unfold client_hello_record in D0.
  pose proof (drop_at data 0 1 _ _ D0 eq_refl) as D1.
  pose proof (drop_at data 1 3 _ _ D1 ltac:(unfold len; lia)) as D3.
  pose proof (drop_at data 3 5 _ _ D3 ltac:(unfold len; lia)) as D5.
  pose proof (drop_at data 5 6 _ _ D5 eq_refl) as D6.
  pose proof (drop_at data 6 9 _ _ D6 ltac:(unfold len; lia)) as D9.
  pose proof (drop_at data 9 11 _ _ D9 eq_refl) as D11.
  pose proof (drop_at data 11 43 _ _ D11 ltac:(unfold len; lia)) as D43.
  pose proof (drop_at data 43 44 _ _ D43 eq_refl) as D44.
  pose proof (drop_at data 44 (44 + len session_id) _ _ D44 eq_refl) as Dcs.
  pose proof (drop_at data _ (46 + len session_id) _ _ Dcs ltac:(unfold len; simpl; lia))
    as Dsuites.
  pose proof (drop_at data _ (46 + len session_id + 2 * len suites) _ _ Dsuites
                ltac:(unfold len; rewrite concat_u16_be_length; lia)) as Dcomp.
  pose proof (drop_at data _ (47 + len session_id + 2 * len suites) _ _ Dcomp
                ltac:(unfold len; simpl; lia)) as Dcomp1.
  pose proof (drop_at data _ (47 + len session_id + 2 * len suites + len compression)
                _ _ Dcomp1 ltac:(lia)) as Dexts.
  destruct (unpack_H_two _ Hrv) as [rv Erv].
  destruct (unpack_H_two _ Hrl) as [rl Erl].
  destruct (unpack_I_four "000" _ Hhl) as [hl Ehl].
  unfold parse_body. cbv zeta.
  change (0 + 5 + 4 + 2 + 32) with 43. change (0 + 5 + 4) with 9.
  change (0 + 5) with 5. change (0 + 1) with 1. change (0 + 3) with 3.
  change (5 + 1) with 6. change (5 + 4) with 9. change (9 + 2) with 11.
  rewrite (index_at data 0 _ _ D0), to_N_byte_of_N by done.
  cbn [mbind result_bind N.eqb Pos.eqb negb].
  rewrite (slice_at data 1 3 _ _ D1), Erv by (unfold len; lia).
  cbn [mbind result_bind].
  rewrite (slice_at data 3 5 _ _ D3), Erl by (unfold len; lia).
  cbn [mbind result_bind].
  rewrite (index_at data 5 _ _ D5), to_N_byte_of_N by done.
  cbn [mbind result_bind N.eqb Pos.eqb negb].
  rewrite (slice_at data 6 9 _ _ D6), Ehl by (unfold len; lia).
  cbn [mbind result_bind].
  rewrite (slice_at data 9 11 _ _ D9), unpack_H_u16_be by done.
  cbn [mbind result_bind].
  rewrite (index_at data 43 _ _ D43), to_N_byte_of_N by done.
  cbn [mbind result_bind].
  replace (43 + (1 + len session_id)) with (44 + len session_id) by lia.
  rewrite (slice_at data _ _ _ _ Dcs), unpack_H_u16_be by done.
  cbn [mbind result_bind].
  replace (44 + len session_id + 2) with (46 + len session_id) by lia.
  rewrite (read_codes_listed data _ suites [] _ Hsuites Dsuites).
  cbn [app mbind result_bind].
  rewrite (index_at data _ _ _ Dcomp), to_N_byte_of_N by done.
  cbn [mbind result_bind].
  replace (46 + len session_id + 2 * len suites + (1 + len compression))
    with (47 + len session_id + 2 * len suites + len compression) by lia.
  set (offset := 47 + len session_id + 2 * len suites + len compression) in *.
  assert (len data = offset + len (extension_block exts)) as Hlen.
  { unfold data, client_hello_record, offset, len.
    rewrite !length_app, concat_u16_be_length, u16_be_length, !u16_be_length.
    cbn [length]. lia. }
  destruct exts as [l |]; cbn [extension_block default] in *.
  - destruct (offset <? len data) eqn:Hlt.
    2:{ apply N.ltb_ge in Hlt. rewrite Hlen in Hlt. unfold len in Hlt.
        rewrite length_app, u16_be_length in Hlt. lia. }
    rewrite (slice_at data offset _ _ _ Dexts), unpack_H_u16_be by done.
    cbn [mbind result_bind].
    rewrite (ext_loop_framed data [] l Hexts (offset + 2) _ no_extensions);
      [reflexivity | | reflexivity].
    rewrite app_nil_r. by apply (drop_at data offset _ _ _ Dexts).
  - destruct (offset <? len data) eqn:Hlt.
    { apply N.ltb_lt in Hlt. rewrite Hlen in Hlt. unfold len in Hlt.
      simpl in Hlt. lia. }
    reflexivity.
Qed.

(** X19. The parser reads back a well-formed record: for a record made of
    the header bytes, a client version, 32 random bytes, a session id, the
    cipher suites, the compression methods and an extension block (or none),
    it returns the ClientHello with that version, those cipher suites in
    wire order, and the variables that the extensions, taken in order, leave
    behind. *)
Theorem parse_reads_record record_version record_length handshake_length
    client_version random session_id suites compression exts :
  length record_version = 2%nat → length record_length = 2%nat →
  length handshake_length = 3%nat →
  client_version < 65536 → length random = 32%nat →
  len session_id < 256 →
  Forall (λ x, x < 65536) suites → 2 * len suites < 65536 →
  len compression < 256 →
  Forall fits_header (default [] exts) →
  len (concat (extension_bytes <$> default [] exts)) < 65536 →
  parse_client_hello_raw
    (client_hello_record record_version record_length handshake_length
       client_version random session_id suites compression exts)
  = Some (hello_of client_version suites
            (foldl ext_effect no_extensions (default [] exts))).
Proof.
  intros. unfold parse_client_hello_raw.
  by rewrite parse_body_framed.
Qed.

Lemma parse_reads_record_witness :
  parse_client_hello_raw
    (client_hello_record (buffer [3; 1]) (buffer [0; 0]) (buffer [0; 0; 0]) 0x0303
       (replicate 32 "000"%byte) (buffer [7]) [0x1301; 0x0a0a] (buffer [0])
       (Some [(0x0a0a, buffer []); (EXT_SUPPORTED_VERSIONS, versions_data [0x0304])]))
  = Some (hello_of 0x0303 [0x1301; 0x0a0a]
            (foldl ext_effect no_extensions
               [(0x0a0a, buffer []); (EXT_SUPPORTED_VERSIONS, versions_data [0x0304])])).
Proof.
  apply (parse_reads_record (buffer [3; 1]) (buffer [0; 0]) (buffer [0; 0; 0]) 0x0303
           (replicate 32 "000"%byte) (buffer [7]) [0x1301; 0x0a0a] (buffer [0])
           (Some [(0x0a0a, buffer []);
                  (EXT_SUPPORTED_VERSIONS, versions_data [0x0304])]));
    try reflexivity; repeat constructor.
Defined.

(** *** Extensions by kind *)

Lemma text_of_decode s : is_utf8 s → decode s = Ok (text_of s).
Proof. intros [text H]. unfold text_of. by rewrite H. Qed.

Lemma on_wire_fits x : well_formed x → fits_header (on_wire x).
Proof.
  destruct x as [hi lo name_type name | protos | codes | codes | ext_type body];
    cbn [well_formed on_wire]; unfold fits_header; cbn [fst snd].
  - intros [Hlen _]. split; [done |].
    unfold sni_data, len in *. rewrite !length_app, u16_be_length. cbn [length]. lia.
  - intros [_ Hlen]. split; [done |].
    unfold alpn_data, len in *. rewrite length_app, u16_be_length. lia.
  - intros [_ Hlen]. split; [done |].
    unfold versions_data, len in *. cbn [length]. rewrite concat_u16_be_length. lia.
  - intros [_ Hlen]. split; [done |].
    unfold sigalgs_data, len in *. rewrite length_app, u16_be_length, concat_u16_be_length.
    lia.
  - intros (? & ? & _). done.
Qed.

Lemma ext_effect_said vs x : well_formed x → ext_effect vs (on_wire x) = said vs x.
Proof.
  destruct x as [hi lo name_type name | protos | codes | codes | ext_type body];
    cbn [well_formed on_wire]; unfold ext_effect, said, ext_type_of;
    cbn [on_wire fst snd].
  - intros [Hlen Hname].
    assert ((0 <? len (sni_data hi lo name_type name)) = true) as -> by done.
    cbn [N.eqb EXT_SNI andb]. do 2 f_equal.
    unfold parse_sni, sni_data.
    assert (slice ([hi; lo; name_type] ++ u16_be (len name) ++ name) 3 5
            = u16_be (len name)) as -> by done.
    rewrite unpack_H_u16_be by lia. cbn [mbind result_bind].
    rewrite (slice_at _ 5 _ name []); [| by rewrite app_nil_r | done].
    cbn [app slice take drop unpack_H N.to_nat N.sub index lookup list_lookup
         Pos.to_nat Pos.iter_op Init.Nat.add mbind result_bind].
    by rewrite (text_of_decode _ Hname).
  - intros [Hprotos Hlen].
    assert ((0 <? len (alpn_data protos)) = true) as -> by done.
    cbn [N.eqb Pos.eqb EXT_SNI EXT_ALPN andb]. f_equal.
    unfold parse_alpn, alpn_data.
    set (entries := concat (alpn_entry <$> protos)) in *.
    assert (slice (u16_be (len entries) ++ entries) 0 2 = u16_be (len entries))
      as -> by done.
    rewrite unpack_H_u16_be by lia.
    apply (alpn_loop_entries _ _ [] protos (text_of <$> protos)).
    + apply Forall2_fmap_r, Forall_Forall2_diag.
      eapply Forall_impl; [exact Hprotos |].
      intros proto [Hutf Hp]. split; [by apply text_of_decode | done].
    + by rewrite app_nil_r.
    + done.
  - intros [Hcodes Hlen].
    assert ((0 <? len (versions_data codes)) = true) as -> by done.
    cbn [N.eqb Pos.eqb EXT_SNI EXT_ALPN EXT_SUPPORTED_VERSIONS andb]. f_equal.
    unfold parse_supported_versions, versions_data.
    rewrite (index_at _ 0 (byte_of_N (2 * len codes)) (concat (u16_be <$> codes)))
      by done.
    rewrite to_N_byte_of_N by done.
    rewrite (read_codes_listed _ 1 codes _ []); [done | done |].
    by rewrite app_nil_r.
  - intros [Hcodes Hlen].
    assert ((0 <? len (sigalgs_data codes)) = true) as -> by done.
    cbn [N.eqb Pos.eqb EXT_SNI EXT_ALPN EXT_SUPPORTED_VERSIONS
         EXT_SIGNATURE_ALGORITHMS andb]. f_equal.
    unfold parse_signature_algorithms, sigalgs_data.
    assert (slice (u16_be (2 * len codes) ++ concat (u16_be <$> codes)) 0 2
            = u16_be (2 * len codes)) as -> by done.
    rewrite unpack_H_u16_be by lia.
    rewrite (read_codes_listed _ 2 codes _ []); [done | done |].
    by rewrite app_nil_r.
  - intros (_ & _ & Hother).
    rewrite !elem_of_cons, elem_of_nil in Hother.
    destruct (ext_type =? EXT_SNI) eqn:E0; [apply N.eqb_eq in E0; tauto |].
    destruct (ext_type =? EXT_ALPN) eqn:E1; [apply N.eqb_eq in E1; tauto |].
    destruct (ext_type =? EXT_SUPPORTED_VERSIONS) eqn:E2; [apply N.eqb_eq in E2; tauto |].
    destruct (ext_type =? EXT_SIGNATURE_ALGORITHMS) eqn:E3;
      [apply N.eqb_eq in E3; tauto |].
    done.
Qed.

Lemma foldl_ext_effect_said xs :
  Forall well_formed xs →
  ∀ vs, foldl ext_effect vs (on_wire <$> xs) = foldl said vs xs.
Proof.
  induction 1 as [| x xs Hx _ IH]; intros vs; [done |].
  rewrite fmap_cons. cbn [foldl]. by rewrite ext_effect_said, IH.
Qed.

(** X20. The parser reads back the extensions of a well-formed record, kind
    by kind and in order: every type is listed; a server-name extension sets
    sni to its host name, the last one wins; the protocol names, the
    supported versions and the signature algorithms of the extensions of
    these kinds are appended in wire order; other extensions are only
    listed. *)
Theorem parse_reads_extensions record_version record_length handshake_length
    client_version random session_id suites compression xs :
  length record_version = 2%nat → length record_length = 2%nat →
  length handshake_length = 3%nat →
  client_version < 65536 → length random = 32%nat →
  len session_id < 256 →
  Forall (λ x, x < 65536) suites → 2 * len suites < 65536 →
  len compression < 256 →
  Forall well_formed xs →
  len (concat (extension_bytes <$> (on_wire <$> xs))) < 65536 →
  parse_client_hello_raw
    (client_hello_record record_version record_length handshake_length
       client_version random session_id suites compression (Some (on_wire <$> xs)))
  = Some (hello_of client_version suites (foldl said no_extensions xs)).
Proof.
  intros ? ? ? ? ? ? ? ? ? Hxs Hlen. unfold parse_client_hello_raw.
  rewrite parse_body_framed; try done.
  - cbn [from_option id]. by rewrite foldl_ext_effect_said.
  - cbn [from_option id]. apply Forall_fmap. eapply Forall_impl; [exact Hxs |].
    intros x Hx. by apply on_wire_fits.
Qed.

Lemma parse_reads_extensions_witness :
  parse_client_hello_raw
    (client_hello_record (buffer [3; 1]) (buffer [0; 0]) (buffer [0; 0; 0]) 0x0303
       (replicate 32 "000"%byte) (buffer []) [0x1301] (buffer [0])
       (Some (on_wire <$> sample_extensions)))
  = Some {| version := 0x0303; cipher_suites := [0x1301];
            extensions := [0; 16; 43; 13; 0xff01];
            sni := Some (py "ex.com");
            alpn_protocols := [py "h2"; py "http/1.1"];
            supported_versions := [0x0a0a; 0x0304; 0x0303];
            signature_algorithms := [0x0403; 0x0804] |}.
Proof.
  apply (parse_reads_extensions (buffer [3; 1]) (buffer [0; 0]) (buffer [0; 0; 0]) 0x0303
           (replicate 32 "000"%byte) (buffer []) [0x1301] (buffer [0])
           sample_extensions); try reflexivity.
  - repeat constructor.
  - unfold sample_extensions, well_formed, is_utf8.
    repeat first [ apply Forall_cons | apply Forall_nil | split | reflexivity
                 | by eexists | by vm_compute ].
  rewrite !elem_of_cons, elem_of_nil. intros [H | [H | [H | [H | H]]]]; done.
Defined.
